(** * irc3.plugins.feeds: the feeds plugin, embedded and verified

    The plugin polls syndication feeds, keeps one watermark file per
    stored feed file, and announces new entries on IRC channels.  This
    file embeds [src/irc3/plugins/feeds.py] function by function
    ([fetch], [parse], [Feeds.__init__], [Feeds.parse], [Feeds.fetch],
    [Feeds.update]) and states the properties of the design document
    against that embedding.

    Conventions of the embedding (the language is Python 3):
    - a Python [str] is the list of its code points ([list N]); [<] and
      [<=] on [str] are the lexicographic order on code points;
    - a Python exception is a value of [exn]; code that can raise lives
      in [result] (pure) or in the state-and-exception monad [M];
    - files are a finite map from paths to file records; a file may be
      closed to reading or to writing, which makes [open] raise
      [OSError].  The functions of the plugin are embedded over text:
      the content of a file is the text that a read returns, and a
      write either is refused at [open] or stores its text whole.  The
      text-mode read of the watermark is embedded a second time byte
      by byte ([read_text]: UTF-8 decoding, universal newlines); the
      two reads agree on plain ASCII without carriage return
      ([read_updated_text_plain]), which is the kind of watermark file
      that the statements about [parse] are about;
    - an entry of the decoder carries the four fields that the plugin
      reads, with values of the expected types; of the per-feed
      options, [fmt], [delay] and [channels] are embedded;
    - the thread pool runs the workers one after the other, in batch
      order; this is what the iteration over [executor.map] observes,
      and what the files end up as when no two workers write the same
      file;
    - a naive [datetime] is its number of microseconds on the proleptic
      Gregorian time line, which orders datetimes the way Python does;
    - [time.time()] readings are exact integers (the IEEE rounding of
      Python floats is not modelled);
    - the external collaborators (feed decoder, HTTP client, clocks,
      [str.format], the thread pool's scheduling, the helpers of
      [irc3.utils]) are fields of one record [Collaborators], over
      which every statement quantifies; the hook and [str.format] are
      total functions. *)

From Stdlib Require Import ZArith NArith Lia List Bool Ascii String DecimalString.
From Stdlib Require Import Sorted Permutation.
From Stdlib Require Import DecimalFacts DecimalNat.
From stdpp Require Import base option list gmap.

Local Open Scope Z_scope.

(** ** Python strings *)

Abbreviation str := (list N).

(** An ASCII literal as a Python string. *)
Definition py (s : string) : str :=
  List.map N_of_ascii (list_ascii_of_string s).

(** [a < b], [a == b], [a > b] on [str]: code point by code point, a
    proper prefix is smaller. *)
Fixpoint str_compare (a b : str) : comparison :=
  match a, b with
  | [], [] => Eq
  | [], _ :: _ => Lt
  | _ :: _, [] => Gt
  | x :: a', y :: b' =>
      match N.compare x y with
      | Eq => str_compare a' b'
      | c => c
      end
  end.

Definition str_ltb (a b : str) : bool :=
  match str_compare a b with Lt => true | _ => false end.

Definition str_leb (a b : str) : bool :=
  match str_compare a b with Gt => false | _ => true end.

Definition str_eqb (a b : str) : bool :=
  match str_compare a b with Eq => true | _ => false end.

(** [str.isspace] on one code point (CPython's [_PyUnicode_IsWhitespace]). *)
Definition isspace (c : N) : bool :=
  ((9 <=? c) && (c <=? 13) || (28 <=? c) && (c <=? 32)
   || (c =? 133) || (c =? 160) || (c =? 5760)
   || (8192 <=? c) && (c <=? 8202)
   || (c =? 8232) || (c =? 8233) || (c =? 8239) || (c =? 8287)
   || (c =? 12288))%N.

Fixpoint lstrip (s : str) : str :=
  match s with
  | [] => []
  | c :: s' => if isspace c then lstrip s' else s
  end.

Definition rstrip (s : str) : str := rev (lstrip (rev s)).

(** [s.strip()] *)
Definition strip (s : str) : str := rstrip (lstrip s).

(** [s.replace('/', '_')] *)
Definition replace_slash (s : str) : str :=
  List.map (fun c => if (c =? 47)%N then 95%N else c) s.

(** ['{0}'.format(i)] for a non-negative [int]. *)
Definition str_of_nat (i : nat) : str :=
  py (NilZero.string_of_uint (Nat.to_uint i)).

(** [os.path.join(a, p)] (posixpath, two arguments). *)
Definition path_join (a p : str) : str :=
  match p with
  | 47%N :: _ => p
  | _ =>
      match last a with
      | None => p
      | Some 47%N => a ++ p
      | Some _ => a ++ py "/" ++ p
      end
  end.

(** ** Exceptions *)

(** The exception classes the code meets.  All are subclasses of
    [Exception]; [External] stands for whatever a collaborator raises
    (a [requests] error, a decoder error). *)
Inductive exn : Type :=
  | OSError
  | ValueError
  | TypeError
  | OverflowError
  | IndexError
  | KeyError
  | External (what : str).

Inductive result (A : Type) : Type :=
  | Ok (a : A)
  | Raise (e : exn).

Arguments Ok {A} a.
Arguments Raise {A} e.

Definition rbind {A B} (r : result A) (k : A -> result B) : result B :=
  match r with
  | Ok a => k a
  | Raise e => Raise e
  end.

Definition is_OSError (e : exn) : bool :=
  match e with OSError => true | _ => false end.

(** ** datetime *)

Definition is_leap (y : Z) : bool :=
  (y mod 4 =? 0) && (negb (y mod 100 =? 0) || (y mod 400 =? 0)).

Definition days_in_month (y m : Z) : Z :=
  if m =? 2 then (if is_leap y then 29 else 28)
  else if (m =? 4) || (m =? 6) || (m =? 9) || (m =? 11) then 30
  else 31.

Definition days_before_year (y : Z) : Z :=
  let p := y - 1 in p * 365 + p / 4 - p / 100 + p / 400.

Fixpoint days_before_month_aux (y : Z) (k : nat) : Z :=
  match k with
  | O => 0
  | S k' => days_before_month_aux y k' + days_in_month y (Z.of_nat k)
  end.

(** Days of year [y] that precede the first day of month [m]. *)
Definition days_before_month (y m : Z) : Z :=
  days_before_month_aux y (Z.to_nat (m - 1)).

(** The proleptic Gregorian ordinal, 0001-01-01 being day 1. *)
Definition ymd2ord (y m d : Z) : Z :=
  days_before_year y + days_before_month y m + d.

Definition us_per_day : Z := 86400 * 1000000.

(** A naive datetime, as microseconds since the start of day 0. *)
Definition datetime := Z.

(** [datetime.datetime(year, month, day, hour, minute, second,
    microsecond)]: [ValueError] when a field is out of range. *)
Definition datetime_new (y m d hh mm ss us : Z) : result datetime :=
  if (1 <=? y) && (y <=? 9999) && (1 <=? m) && (m <=? 12)
     && (1 <=? d) && (d <=? days_in_month y m)
     && (0 <=? hh) && (hh <=? 23) && (0 <=? mm) && (mm <=? 59)
     && (0 <=? ss) && (ss <=? 59) && (0 <=? us) && (us <=? 999999)
  then Ok (ymd2ord y m d * us_per_day
           + ((hh * 60 + mm) * 60 + ss) * 1000000 + us)
  else Raise ValueError.

(** [dt - datetime.timedelta(days=n)]: [OverflowError] below
    [datetime.min] (0001-01-01 00:00). *)
Definition datetime_sub_days (dt : datetime) (n : Z) : result datetime :=
  let r := dt - n * us_per_day in
  if r <? us_per_day then Raise OverflowError else Ok r.

(** [time.struct_time], nine fields. *)
Record struct_time : Type := StructTime {
  tm_year : Z; tm_mon : Z; tm_mday : Z;
  tm_hour : Z; tm_min : Z; tm_sec : Z;
  tm_wday : Z; tm_yday : Z; tm_isdst : Z
}.

(** [datetime.datetime( *t[:7])]: the first seven fields of the struct,
    positionally; the seventh, [tm_wday], lands on [microsecond]. *)
Definition datetime_of_struct7 (t : struct_time) : result datetime :=
  datetime_new (tm_year t) (tm_mon t) (tm_mday t)
               (tm_hour t) (tm_min t) (tm_sec t) (tm_wday t).

(** ** Data model *)

(** One feed item as the decoder hands it over ([feedparser]'s entry
    dict): the raw update timestamp, its parsed form, title and link;
    [filename] is the key that [parse] adds. *)
Record Entry : Type := MkEntry {
  updated : str;
  updated_parsed : struct_time;
  title : str;
  link : str;
  filename : option str
}.

(** One configured feed: the dict built by [Feeds.__init__] (and its
    [irc3.utils.Config] copy inside [parse]). *)
Record Feed : Type := MkFeed {
  name : str;
  feeds : list str;
  filenames : list str;
  fmt : str;
  delay : Z;
  channels : list str;
  headers : list (str * str);
  time : Z
}.

#[global] Instance struct_time_eq_dec : EqDecision struct_time.
Proof. solve_decision. Defined.
#[global] Instance Entry_eq_dec : EqDecision Entry.
Proof. solve_decision. Defined.
#[global] Instance Feed_eq_dec : EqDecision Feed.
Proof. solve_decision. Defined.

(** An element of the [entries] lists: [(e.updated, (args, e))]. *)
Abbreviation candidate := (str * (Feed * Entry))%type.

(** ** Files *)

Record file : Type := MkFile {
  content : str;
  readable : bool;
  writable : bool
}.

(** [open(path).read()]: [OSError] when the file is missing or may not
    be read. *)
Definition read_file (fs : gmap str file) (path : str) : result str :=
  match fs !! path with
  | Some f => if readable f then Ok (content f) else Raise OSError
  | None => Raise OSError
  end.

(** [open(path, 'w').write(s)]: creates or overwrites; [OSError] when
    the file exists and may not be written ([open] refuses, before
    anything is truncated).  A write that fails after [open] is not
    embedded. *)
Definition write_file (fs : gmap str file) (path s : str)
  : gmap str file * result unit :=
  match fs !! path with
  | Some f =>
      if writable f
      then (<[path := MkFile s (readable f) true]> fs, Ok tt)
      else (fs, Raise OSError)
  | None => (<[path := MkFile s true true]> fs, Ok tt)
  end.

(** *** Text mode, byte by byte

    [open(path)] without a mode is a text-mode read: the bytes of the
    file are decoded with the codec of the locale, taken to be UTF-8,
    and every line ending ([\r\n] or a lone [\r]) is returned as [\n].
    The decoder is strict, as Python's is: a byte sequence that is not
    well-formed UTF-8 raises [UnicodeDecodeError], a subclass of
    [ValueError] and no [OSError].

    [read_text] is that read, with the content of a file taken as its
    bytes.  On a file of plain ASCII without carriage return it is
    [read_file] ([read_text_plain] below), and this is the case in which
    the functions of the plugin are embedded over [read_file]. *)

(** A continuation byte [10xxxxxx]. *)
Definition is_cont (b : N) : bool := ((128 <=? b) && (b <=? 191))%N.

(** The second byte allowed after the lead byte of a three-byte
    sequence: no overlong forms, no surrogates. *)
Definition second_of_three (b c : N) : bool :=
  ((b =? 224) && (160 <=? c) && (c <=? 191)
   || (((225 <=? b) && (b <=? 236)) || ((238 <=? b) && (b <=? 239)))
      && is_cont c
   || (b =? 237) && (128 <=? c) && (c <=? 159))%N.

(** The second byte allowed after the lead byte of a four-byte
    sequence: no overlong forms, nothing above U+10FFFF. *)
Definition second_of_four (b c : N) : bool :=
  ((b =? 240) && (144 <=? c) && (c <=? 191)
   || ((241 <=? b) && (b <=? 243)) && is_cont c
   || (b =? 244) && (128 <=? c) && (c <=? 143))%N.

(** [bytes.decode('utf-8')] *)
Fixpoint utf8_decode (bs : list N) : result str :=
  match bs with
  | [] => Ok []
  | b :: r =>
      if (b <? 128)%N then rbind (utf8_decode r) (fun t => Ok (b :: t))
      else
        match r with
        | [] => Raise ValueError
        | c1 :: r1 =>
            if ((194 <=? b) && (b <=? 223) && is_cont c1)%N then
              rbind (utf8_decode r1)
                    (fun t => Ok (((b - 192) * 64 + (c1 - 128))%N :: t))
            else
              match r1 with
              | [] => Raise ValueError
              | c2 :: r2 =>
                  if second_of_three b c1 && is_cont c2 then
                    rbind (utf8_decode r2)
                          (fun t =>
                             Ok (((b - 224) * 4096 + (c1 - 128) * 64
                                  + (c2 - 128))%N :: t))
                  else
                    match r2 with
                    | [] => Raise ValueError
                    | c3 :: r3 =>
                        if second_of_four b c1 && is_cont c2 && is_cont c3
                        then
                          rbind (utf8_decode r3)
                                (fun t =>
                                   Ok (((b - 240) * 262144
                                        + (c1 - 128) * 4096
                                        + (c2 - 128) * 64
                                        + (c3 - 128))%N :: t))
                        else Raise ValueError
                    end
              end
        end
  end.

(** Universal newlines on input. *)
Fixpoint universal_newlines (t : str) : str :=
  match t with
  | [] => []
  | c :: r =>
      if (c =? 13)%N then
        match r with
        | d :: r' =>
            if (d =? 10)%N then 10%N :: universal_newlines r'
            else 10%N :: universal_newlines r
        | [] => [10%N]
        end
      else c :: universal_newlines r
  end.

(** [open(path).read()] on the bytes of the file. *)
Definition read_text (fs : gmap str file) (path : str) : result str :=
  match fs !! path with
  | Some f =>
      if readable f
      then rbind (utf8_decode (content f))
                 (fun t => Ok (universal_newlines t))
      else Raise OSError
  | None => Raise OSError
  end.

(** ** Collaborators and program state *)

Inductive log_record : Type :=
  | LogInfo (names : list str)
  | LogException (e : exn).

(** The per-feed options that [irc3.utils.extract_config] finds under
    the keys [name.fmt], [name.delay], [name.channels]. *)
Record Overrides : Type := MkOverrides {
  o_fmt : option str;
  o_delay : option Z;
  o_channels : option str
}.

(** The plugin's section of the bot configuration: the recognised
    options (defaults already applied, [delay] already an [int]) and
    all items of the section in file order. *)
Record Config : Type := MkConfig {
  cfg_directory : str;
  cfg_fmt : str;
  cfg_delay : Z;
  cfg_channels : str;
  cfg_items : list (str * str)
}.

(** What the plugin does not own.  The clocks are indexed by the number
    of readings taken so far. *)
Record Collaborators : Type := MkCollaborators {
  feedparser_parse : gmap str file -> str -> result (list Entry);
  requests_get : str -> list (str * str) -> result str;
  time_time : nat -> Z;
  datetime_now : nat -> datetime;
  str_format : str -> Feed -> Entry -> str;
  pool_started : str -> bool;
  as_list : str -> list str;
  as_channel : str -> str;
  extract_config : list (str * str) -> str -> Overrides
}.

(** Everything the code mutates: [self.feeds] (a dict, kept in
    insertion order), the files, the clock position, the bot's log, the
    [privmsg] calls made and the [call_later] delays requested. *)
Record state : Type := MkState {
  self_feeds : list (str * Feed);
  files : gmap str file;
  ticks : nat;
  log : list log_record;
  sent : list (str * str);
  scheduled : list Z
}.

(** The fields of the plugin and of the bot that never change. *)
Record Plugin : Type := MkPlugin {
  self_hook : nat -> Feed -> Entry -> option (Feed * Entry);
  self_max_workers : Z;
  self_delay : Z;
  bot_testing : bool;
  bot_loop : bool
}.

(** State and exceptions: a computation returns the state it reached
    and either a value or the exception that left it. *)
Definition M (A : Type) : Type := state -> state * result A.

Definition ret {A} (a : A) : M A := fun s => (s, Ok a).

Definition raise {A} (e : exn) : M A := fun s => (s, Raise e).

Definition bind {A B} (m : M A) (k : A -> M B) : M B :=
  fun s =>
    match m s with
    | (s', Ok a) => k a s'
    | (s', Raise e) => (s', Raise e)
    end.

Definition lift {A} (r : result A) : M A := fun s => (s, r).

(** [try: m / except <classes>: handler], [catches] telling the classes. *)
Definition try_except {A} (m : M A) (catches : exn -> bool)
  (handler : exn -> M A) : M A :=
  fun s =>
    match m s with
    | (s', Ok a) => (s', Ok a)
    | (s', Raise e) => if catches e then handler e s' else (s', Raise e)
    end.

Declare Scope py_scope.
Delimit Scope py_scope with py.
Notation "x <- m ;; k" := (bind m (fun x => k))
  (at level 100, m at next level, right associativity) : py_scope.
Notation "m ;;; k" := (bind m (fun _ => k))
  (at level 100, right associativity) : py_scope.
Notation "x <-r m ;; k" := (rbind m (fun x => k))
  (at level 100, m at next level, right associativity) : py_scope.
Local Open Scope py_scope.

Definition get_files : M (gmap str file) := fun s => (s, Ok (files s)).

Definition open_read (path : str) : M str :=
  fun s => (s, read_file (files s) path).

Definition open_write (path text : str) : M unit :=
  fun s =>
    let '(fs, r) := write_file (files s) path text in
    (MkState (self_feeds s) fs (ticks s) (log s) (sent s) (scheduled s), r).

Definition tick (s : state) : state :=
  MkState (self_feeds s) (files s) (S (ticks s)) (log s) (sent s)
          (scheduled s).

Definition log_append (r : log_record) : M unit :=
  fun s =>
    (MkState (self_feeds s) (files s) (ticks s) (log s ++ [r]) (sent s)
             (scheduled s), Ok tt).

(** ** Dicts kept in insertion order *)

Fixpoint dict_get {V} (d : list (str * V)) (k : str) : option V :=
  match d with
  | [] => None
  | (k', v) :: d' => if decide (k' = k) then Some v else dict_get d' k
  end.

(** [d[k] = v]: overwrite in place, or append a new key. *)
Fixpoint dict_set {V} (d : list (str * V)) (k : str) (v : V)
  : list (str * V) :=
  match d with
  | [] => [(k, v)]
  | (k', v') :: d' =>
      if decide (k' = k) then (k, v) :: d' else (k', v') :: dict_set d' k v
  end.

Definition dict_values {V} (d : list (str * V)) : list V := List.map snd d.

(** ** The built-in [sorted] on candidates *)

(** [x < y] for two [(updated, (args, e))] tuples.  Python compares
    tuples item by item: the first items that are not [==] decide.  When
    the timestamps are equal the payloads are compared; payloads are
    tuples of dicts ([Config], the decoder's entry dict), equal ones give
    [False], and [<] on different dicts raises [TypeError]. *)
Definition candidate_lt (x y : candidate) : result bool :=
  if str_eqb (fst x) (fst y)
  then if bool_decide (snd x = snd y) then Ok false else Raise TypeError
  else Ok (str_ltb (fst x) (fst y)).

(** [sorted] only ever asks [<].  It is embedded as a stable insertion
    sort; [sorted_raises_iff] and [sorted_ok_spec] below show that the
    outcome is the one of any comparison sort. *)
Fixpoint insert_sorted (x : candidate) (l : list candidate)
  : result (list candidate) :=
  match l with
  | [] => Ok [x]
  | y :: l' =>
      b <-r candidate_lt y x ;;
      if b : bool then (r <-r insert_sorted x l' ;; Ok (y :: r))
      else Ok (x :: l)
  end.

Fixpoint sorted (l : list candidate) : result (list candidate) :=
  match l with
  | [] => Ok []
  | x :: l' => s <-r sorted l' ;; insert_sorted x s
  end.

(** ** The program *)

Section Program.

Context (env : Collaborators).

(** [datetime.datetime.now()] and [time.time()]: one clock reading each. *)
Definition datetime_datetime_now : M datetime :=
  fun s => (tick s, Ok (datetime_now env (ticks s))).

Definition time_time_now : M Z :=
  fun s => (tick s, Ok (time_time env (ticks s))).

(** [default_hook] *)
Definition default_hook (i : nat) (feed : Feed) (entry : Entry)
  : option (Feed * Entry) :=
  Some (feed, entry).

(** *** [fetch] *)

(** The loop of [fetch] over [zip(args['feeds'], args['filenames'])]: the
    handler re-raises, so the first failure ends the loop. *)
Fixpoint fetch_urls (hdrs : list (str * str)) (pairs : list (str * str))
  (fs : gmap str file) : gmap str file * result unit :=
  match pairs with
  | [] => (fs, Ok tt)
  | (feed, fname) :: rest =>
      match requests_get env feed hdrs with
      | Raise e => (fs, Raise e)
      | Ok resp_content =>
          match write_file fs fname resp_content with
          | (fs', Raise e) => (fs', Raise e)
          | (fs', Ok _) => fetch_urls hdrs rest fs'
          end
      end
  end.

Definition fetch (args : Feed) (fs : gmap str file)
  : gmap str file * result str :=
  match fetch_urls (headers args) (combine (feeds args) (filenames args)) fs
  with
  | (fs', Ok _) => (fs', Ok (name args))
  | (fs', Raise e) => (fs', Raise e)
  end.

(** *** [parse] *)

(** The [try]/[except OSError] that reads the watermark of one file. *)
Definition read_updated (fname : str) : M str :=
  try_except (fd_read <- open_read (fname ++ py ".updated") ;;
              ret (strip fd_read))
             is_OSError
             (fun _ => ret (py "0")).

(** The same three lines over the bytes of the watermark file. *)
Definition open_read_text (path : str) : M str :=
  fun s => (s, read_text (files s) path).

Definition read_updated_text (fname : str) : M str :=
  try_except (fd_read <- open_read_text (fname ++ py ".updated") ;;
              ret (strip fd_read))
             is_OSError
             (fun _ => ret (py "0")).

(** [e['filename'] = filename] *)
Definition set_filename (fname : str) (e : Entry) : Entry :=
  MkEntry (updated e) (updated_parsed e) (title e) (link e) (Some fname).

(** The loop [for e in feed.entries] of [parse], appending to [entries]. *)
Fixpoint scan (args : Feed) (fname wm : str) (max_date : datetime)
  (es : list Entry) (entries : list candidate) : result (list candidate) :=
  match es with
  | [] => Ok entries
  | e :: es' =>
      if str_leb (updated e) wm then
        scan args fname wm max_date es' entries
      else
        d <-r datetime_of_struct7 (updated_parsed e) ;;
        if d <? max_date then
          scan args fname wm max_date es' entries
        else
          scan args fname wm max_date es'
               (entries ++ [(updated e, (args, set_filename fname e))])
  end.

(** The body of [for filename in args['filenames']]. *)
Definition parse_file (args : Feed) (max_date : datetime)
  (entries : list candidate) (fname : str) : M (list candidate) :=
  wm <- read_updated fname ;;
  fs <- get_files ;;
  feed_entries <- lift (feedparser_parse env fs fname) ;;
  entries <- lift (scan args fname wm max_date feed_entries entries) ;;
  match entries with
  | [] => ret entries
  | _ :: _ =>
      entries <- lift (sorted entries) ;;
      match last entries with
      | None => raise IndexError
      | Some newest =>
          open_write (fname ++ py ".updated") (fst newest) ;;;
          ret entries
      end
  end.

Fixpoint parse_files (args : Feed) (max_date : datetime)
  (fnames : list str) (entries : list candidate) : M (list candidate) :=
  match fnames with
  | [] => ret entries
  | fname :: rest =>
      entries <- parse_file args max_date entries fname ;;
      parse_files args max_date rest entries
  end.

Definition parse (args : Feed) : M (list candidate) :=
  now <- datetime_datetime_now ;;
  max_date <- lift (datetime_sub_days now 2) ;;
  parse_files args max_date (filenames args) [].

(** *** [Feeds.__init__] *)

(** [str(feed).startswith('http')] *)
Definition startswith_http (v : str) : bool :=
  bool_decide (take 4 v = py "http").

(** The inner loop over [enumerate(as_list(feed))]: one file per URL. *)
Definition init_filenames (directory name : str) (urls : list str)
  : list str :=
  imap (fun i _ =>
          path_join directory (replace_slash name)
          ++ py "." ++ str_of_nat i ++ py ".feed") urls.

Definition init_feed (cfg : Config) (name value : str) : Feed :=
  let urls := as_list env value in
  let o := extract_config env (cfg_items cfg) name in
  let chans := as_list env (default (cfg_channels cfg) (o_channels o)) in
  MkFeed name urls (init_filenames (cfg_directory cfg) name urls)
         (default (cfg_fmt cfg) (o_fmt o))
         (default (cfg_delay cfg) (o_delay o) * 60)
         (List.map (as_channel env) chans)
         [(py "User-Agent", py "python-requests/irc3");
          (py "Cache-Control", py "max-age=0")]
         0.

(** The loop [for name, feed in config.items()] filling [self.feeds]. *)
Fixpoint init_feeds (cfg : Config) (items : list (str * str))
  (acc : list (str * Feed)) : list (str * Feed) :=
  match items with
  | [] => acc
  | (name, value) :: rest =>
      if startswith_http value
      then init_feeds cfg rest (dict_set acc name (init_feed cfg name value))
      else init_feeds cfg rest acc
  end.

Definition Feeds_init (cfg : Config) : list (str * Feed) :=
  init_feeds cfg (cfg_items cfg) [].

(** *** [Feeds.parse] *)

Definition get_feeds : M (list Feed) :=
  fun s => (s, Ok (dict_values (self_feeds s))).

(** [for feed in self.feeds.values(): entries.extend(parse(...))] *)
Fixpoint collect (fl : list Feed) (entries : list candidate)
  : M (list candidate) :=
  match fl with
  | [] => ret entries
  | feed :: rest =>
      found <- parse feed ;;
      collect rest (entries ++ found)
  end.

(** The body of the generator [messages], from position [i] on. *)
Fixpoint messages_from (self : Plugin) (i : nat) (l : list candidate)
  : list (str * str) :=
  match l with
  | [] => []
  | (_, (feed, entry)) :: rest =>
      match self_hook self i feed entry with
      | None => messages_from self (S i) rest
      | Some (feed', entry') =>
          let message := str_format env (fmt feed') feed' entry' in
          List.map (fun c => (c, message)) (channels feed')
          ++ messages_from self (S i) rest
      end
  end.

Definition messages (self : Plugin) (entries : list candidate)
  : result (list (str * str)) :=
  l <-r sorted entries ;; Ok (messages_from self 0 l).

(** [self.bot.call_many('privmsg', ...)] *)
Definition call_many_privmsg (msgs : list (str * str)) : M unit :=
  fun s =>
    (MkState (self_feeds s) (files s) (ticks s) (log s) (sent s ++ msgs)
             (scheduled s), Ok tt).

Definition Feeds_parse (self : Plugin) : M unit :=
  fl <- get_feeds ;;
  entries <- collect fl [] ;;
  msgs <- lift (messages self entries) ;;
  call_many_privmsg msgs.

(** *** [Feeds.fetch] *)

(** The batch: [f for f in self.feeds.values() if f['time'] < now - f['delay']]. *)
Definition due (now : Z) (f : Feed) : bool := time f <? now - delay f.

Definition fetch_batch (now : Z) (fl : list Feed) : list Feed :=
  List.filter (due now) fl.

(** [executor.map(fetch, feeds)]: the calls' effects on the files and
    their outcomes in batch order.  After a call has failed the pool
    cancels the calls it has not started yet ([pool_started] tells
    which ones were already running); their slot holds the
    cancellation, which nobody reads.  The calls are run one after the
    other: the outcomes, which is all that [Feeds.fetch] reads, do not
    depend on that, and neither do the files as long as no two calls
    write the same file ([fetch_all_content]). *)
Fixpoint executor_map (batch : list Feed) (failed : bool)
  (fs : gmap str file) : gmap str file * list (result str) :=
  match batch with
  | [] => (fs, [])
  | f :: rest =>
      if failed && negb (pool_started env (name f)) then
        let '(fs', rs) := executor_map rest failed fs in
        (fs', Raise (External (py "CancelledError")) :: rs)
      else
        let '(fs1, r) := fetch f fs in
        let failed' := match r with Raise _ => true | Ok _ => failed end in
        let '(fs2, rs) := executor_map rest failed' fs1 in
        (fs2, r :: rs)
  end.

Definition run_pool (batch : list Feed) : M (list (result str)) :=
  fun s =>
    let '(fs, rs) := executor_map batch false (files s) in
    (MkState (self_feeds s) fs (ticks s) (log s) (sent s) (scheduled s),
     Ok rs).

(** [feed = self.feeds[name]; feed['time'] = time.time()] *)
Definition set_time (fname : str) : M unit :=
  fun s =>
    match dict_get (self_feeds s) fname with
    | None => (s, Raise KeyError)
    | Some feed =>
        let t := time_time env (ticks s) in
        let feed' := MkFeed (name feed) (feeds feed) (filenames feed)
                            (fmt feed) (delay feed) (channels feed)
                            (headers feed) t in
        (MkState (dict_set (self_feeds s) fname feed') (files s)
                 (S (ticks s)) (log s) (sent s) (scheduled s), Ok tt)
    end.

(** [for name in executor.map(...)]: a failed call raises when its turn
    comes. *)
Fixpoint consume (results : list (result str)) : M unit :=
  match results with
  | [] => ret tt
  | Raise e :: _ => raise e
  | Ok fname :: rest => set_time fname ;;; consume rest
  end.

Definition Feeds_fetch (self : Plugin) : M unit :=
  now <- time_time_now ;;
  fl <- get_feeds ;;
  let batch := fetch_batch now fl in
  if bot_testing self then ret tt
  else
    match batch with
    | [] => ret tt
    | _ :: _ =>
        log_append (LogInfo (List.map name batch)) ;;;
        results <- run_pool batch ;;
        consume results
    end.

(** *** [Feeds.update] *)

(** [except Exception]: every class of [exn] is one. *)
Definition is_Exception (e : exn) : bool := true.

Definition call_later (d : Z) : M unit :=
  fun s =>
    (MkState (self_feeds s) (files s) (ticks s) (log s) (sent s)
             (scheduled s ++ [d]), Ok tt).

Definition update (self : Plugin) : M unit :=
  try_except (Feeds_fetch self) is_Exception
             (fun e => log_append (LogException e)) ;;;
  try_except (Feeds_parse self) is_Exception
             (fun e => log_append (LogException e)) ;;;
  if bot_loop self then call_later (self_delay self) else ret tt.

(** *** [Feeds.connection_made] *)

(** [if not testing: self.bot.loop.call_later(10, self.update)]; a bot
    without a loop has nothing to call [call_later] on. *)
Definition connection_made (self : Plugin) : M unit :=
  if bot_testing self then ret tt
  else if bot_loop self then call_later 10
  else raise (External (py "AttributeError")).

End Program.

(** ** Concrete collaborators and inputs

    A small world on which the functions above can be run: a decoder
    that reads one entry per letter of the stored content, an HTTP
    client with one unreachable host, and clocks fixed on 2024-01-21. *)

Module Sample.

Definition entry_a : Entry :=
  MkEntry (py "2024-01-19T00:00:00Z") (StructTime 2024 1 19 0 0 0 4 19 0)
          (py "A") (py "http://feed/a") None.

Definition entry_b : Entry :=
  MkEntry (py "2024-01-20T00:00:00Z") (StructTime 2024 1 20 0 0 0 5 20 0)
          (py "B") (py "http://feed/b") None.

(** Same raw timestamp as [entry_a], another item. *)
Definition entry_c : Entry :=
  MkEntry (py "2024-01-19T00:00:00Z") (StructTime 2024 1 19 0 0 0 4 19 0)
          (py "C") (py "http://feed/c") None.

(** Three weeks old. *)
Definition entry_o : Entry :=
  MkEntry (py "2024-01-01T00:00:00Z") (StructTime 2024 1 1 0 0 0 0 1 0)
          (py "O") (py "http://feed/o") None.

Definition decode_letter (c : N) : list Entry :=
  if (c =? 97)%N then [entry_a]
  else if (c =? 98)%N then [entry_b]
  else if (c =? 99)%N then [entry_c]
  else if (c =? 111)%N then [entry_o]
  else [].

(** One entry per letter; a ['!'] in the content is malformed input on
    which the decoder raises; a missing file is an empty feed. *)
Definition decoder (fs : gmap str file) (fname : str) : result (list Entry) :=
  match fs !! fname with
  | None => Ok []
  | Some f =>
      if bool_decide (33%N ∈ content f)
      then Raise (External (py "decoder"))
      else Ok (flat_map decode_letter (content f))
  end.

(** Every URL answers with the one-entry feed ["b"], except the host
    [http://down], which cannot be reached. *)
Definition http (url : str) (hdrs : list (str * str)) : result str :=
  if bool_decide (take 11 url = py "http://down")
  then Raise (External (py "ConnectionError"))
  else Ok (py "b").

(** 2024-01-21 00:00:00 *)
Definition today : datetime := ymd2ord 2024 1 21 * us_per_day.

Definition render (template : str) (feed : Feed) (entry : Entry) : str :=
  name feed ++ py " " ++ title entry.

Definition env : Collaborators :=
  MkCollaborators decoder http
    (fun n => 1000 + Z.of_nat n)
    (fun _ => today)
    render
    (fun _ => true)
    (fun v => [v])
    (fun c => c)
    (fun _ _ => MkOverrides None None None).

Definition std_headers : list (str * str) :=
  [(py "User-Agent", py "python-requests/irc3");
   (py "Cache-Control", py "max-age=0")].

Definition mkfeed (nm : str) (urls fnames : list str) : Feed :=
  MkFeed nm urls fnames (py "{entry.title}") 300 [py "#chan"] std_headers 0.

Definition textfile (s : string) : file := MkFile (py s) true true.

Definition plugin (h : nat -> Feed -> Entry -> option (Feed * Entry))
  (loop : bool) : Plugin :=
  MkPlugin h 5 300 false loop.

Definition mkstate (fds : list (str * Feed)) (fs : gmap str file) : state :=
  MkState fds fs 0 [] [] [].

(** *** One feed with two URLs

    The first file holds a new entry of 01-19; the second file holds
    only the entry of 01-20, which its watermark says was announced. *)
Definition news : Feed :=
  mkfeed (py "news") [py "http://x/0"; py "http://x/1"]
         [py "d/news.0.feed"; py "d/news.1.feed"].

Definition news_files : gmap str file :=
  <[py "d/news.0.feed" := textfile "a"]>
  (<[py "d/news.1.feed" := textfile "b"]>
  (<[py "d/news.1.feed.updated" := textfile "2024-01-20T00:00:00Z"]> ∅)).

Definition news_state : state := mkstate [(py "news", news)] news_files.

(** The same feed on a first run: the first file holds the entry of
    01-20, the second one the entry of 01-19, no watermark yet. *)
Definition first_run_files : gmap str file :=
  <[py "d/news.0.feed" := textfile "b"]>
  (<[py "d/news.1.feed" := textfile "a"]> ∅).

Definition first_run_state : state :=
  mkstate [(py "news", news)] first_run_files.

(** *** Two feeds whose newest entries carry the same timestamp *)
Definition left : Feed :=
  mkfeed (py "left") [py "http://l/0"] [py "d/left.0.feed"].

Definition right : Feed :=
  mkfeed (py "right") [py "http://r/0"] [py "d/right.0.feed"].

Definition tie_files : gmap str file :=
  <[py "d/left.0.feed" := textfile "a"]>
  (<[py "d/right.0.feed" := textfile "c"]> ∅).

Definition tie_state : state :=
  mkstate [(py "left", left); (py "right", right)] tie_files.

(** *** A malformed first feed, a healthy second one *)
Definition broken_files : gmap str file :=
  <[py "d/left.0.feed" := textfile "!"]>
  (<[py "d/right.0.feed" := textfile "b"]> ∅).

Definition broken_state : state :=
  mkstate [(py "left", left); (py "right", right)] broken_files.

(** The same files, the healthy feed configured first. *)
Definition late_broken_state : state :=
  mkstate [(py "right", right); (py "left", left)] broken_files.

(** *** Three feeds due for a fetch, the middle one unreachable at its
    second URL *)
Definition first : Feed :=
  mkfeed (py "first") [py "http://f/0"] [py "d/first.0.feed"].

Definition middle : Feed :=
  mkfeed (py "middle")
         [py "http://m/0"; py "http://down/1"; py "http://m/2"]
         [py "d/middle.0.feed"; py "d/middle.1.feed"; py "d/middle.2.feed"].

Definition final : Feed :=
  mkfeed (py "final") [py "http://z/0"] [py "d/final.0.feed"].

Definition fetch_state : state :=
  mkstate [(py "first", first); (py "middle", middle); (py "final", final)]
          ∅.


(** *** One file with a known, a new and a stale entry

    The watermark says that the entry of 01-19 was announced. *)
Definition mixed : Feed :=
  mkfeed (py "mixed") [py "http://x/0"] [py "d/mixed.0.feed"].

Definition mixed_files : gmap str file :=
  <[py "d/mixed.0.feed" := textfile "abo"]>
  (<[py "d/mixed.0.feed.updated" := textfile "2024-01-19T00:00:00Z"]> ∅).

Definition mixed_state : state := mkstate [(py "mixed", mixed)] mixed_files.

(** The horizon of the sample clock: 2024-01-19 00:00:00. *)
Definition horizon : datetime := today - 2 * us_per_day.

(** The same feed when its file holds only the stale entry. *)
Definition stale_state : state :=
  mkstate [(py "mixed", mixed)]
          (<[py "d/mixed.0.feed" := textfile "o"]> ∅).


(** The same feed when its watermark file may not be written. *)
Definition locked_state : state :=
  mkstate [(py "mixed", mixed)]
          (<[py "d/mixed.0.feed" := textfile "b"]>
           (<[py "d/mixed.0.feed.updated"
              := MkFile (py "2024-01-19T00:00:00Z") true false]> ∅)).

(** *** A configuration with two feed names that differ by a slash *)
Definition config : Config :=
  MkConfig (py "d") (py "{entry.title}") 5 (py "#chan")
           [(py "a/b", py "http://x/feed"); (py "a_b", py "http://y/feed")].

(** *** A clock two microseconds later *)
Definition late_env : Collaborators :=
  MkCollaborators decoder http
    (fun n => 1000 + Z.of_nat n)
    (fun _ => today + 2)
    render
    (fun _ => true)
    (fun v => [v])
    (fun c => c)
    (fun _ _ => MkOverrides None None None).

(** *** A hook that drops everything *)
Definition drop_all (i : nat) (feed : Feed) (entry : Entry)
  : option (Feed * Entry) := None.

(** *** A hook that drops the first candidate of a cycle only *)
Definition drop_first (i : nat) (feed : Feed) (entry : Entry)
  : option (Feed * Entry) :=
  match i with
  | O => None
  | S _ => Some (feed, entry)
  end.

(** *** A watermark file that is not text

    The byte [0xFF] occurs in no well-formed UTF-8 sequence. *)
Definition garbled_state : state :=
  mkstate [(py "mixed", mixed)]
          (<[py "d/mixed.0.feed" := textfile "b"]>
           (<[py "d/mixed.0.feed.updated" := MkFile [255%N] true true]> ∅)).

End Sample.

(** ** Vocabulary of the statements *)

(** Ascending order of timestamps. *)
Definition key_le (x y : candidate) : Prop := str_leb (fst x) (fst y) = true.

(** No two different candidates share a timestamp. *)
Definition tie_free (l : list candidate) : Prop :=
  forall x y, In x l -> In y l -> fst x = fst y -> snd x = snd y.

(** Two candidates of the list tie on the timestamp and differ. *)
Definition has_tie (l : list candidate) : Prop :=
  exists x y, In x l /\ In y l /\ fst x = fst y /\ snd x <> snd y.

(** The watermark of a stored file as [parse] sees it: the stripped
    text of the side file, ['0'] when that cannot be read. *)
Definition stored_watermark (fs : gmap str file) (fname : str) : str :=
  match read_file fs (fname ++ py ".updated") with
  | Ok text => strip text
  | Raise _ => py "0"
  end.

(** The datetime that [parse] compares with the two-day horizon. *)
Definition entry_datetime (e : Entry) : result datetime :=
  datetime_of_struct7 (updated_parsed e).

(** An entry is new: its raw timestamp is strictly above the watermark
    and its datetime is not before the horizon. *)
Definition is_new (wm : str) (max_date : datetime) (e : Entry) : bool :=
  str_ltb wm (updated e)
  && match entry_datetime e with
     | Ok d => max_date <=? d
     | Raise _ => false
     end.

(** The candidate that [parse] builds from an accepted entry. *)
Definition candidate_of (args : Feed) (fname : str) (e : Entry) : candidate :=
  (updated e, (args, set_filename fname e)).


(** Every fetch of the batch succeeds, in batch order; the files then. *)
Fixpoint fetch_all (env : Collaborators) (batch : list Feed)
  (fs : gmap str file) : option (gmap str file) :=
  match batch with
  | [] => Some fs
  | f :: rest =>
      match fetch env f fs with
      | (fs', Ok _) => fetch_all env rest fs'
      | (_, Raise _) => None
      end
  end.

(** The state after a guarded phase of [update]: the exception, if
    any, went to the log. *)
Definition after_phase (r : result unit) (s : state) : state :=
  match r with
  | Ok _ => s
  | Raise e => fst (log_append (LogException e) s)
  end.

(** Two feed dicts that agree on every option but the last fetch time. *)
Definition same_options (f f' : Feed) : Prop :=
  name f = name f' /\ feeds f = feeds f' /\ filenames f = filenames f'
  /\ fmt f = fmt f' /\ delay f = delay f' /\ channels f = channels f'
  /\ headers f = headers f'.

(** Two registries with the same keys in the same order, whose feeds
    agree on every option but the last fetch time. *)
Definition same_registry (d d' : list (str * Feed)) : Prop :=
  Forall2 (fun kf kf' => fst kf = fst kf' /\ same_options (snd kf) (snd kf'))
          d d'.

(** The state after [n] update cycles run one after the other. *)
Fixpoint run_updates (env : Collaborators) (self : Plugin) (n : nat)
  (s : state) : state :=
  match n with
  | O => s
  | S k => run_updates env self k (fst (update env self s))
  end.

(** The same plugin with another hook. *)
Definition with_hook (self : Plugin)
  (h : nat -> Feed -> Entry -> option (Feed * Entry)) : Plugin :=
  MkPlugin h (self_max_workers self) (self_delay self) (bot_testing self)
           (bot_loop self).

(** What one candidate at position [i] contributes to [messages]. *)
Definition messages_of (env : Collaborators) (self : Plugin) (i : nat)
  (c : candidate) : list (str * str) :=
  match self_hook self i (fst (snd c)) (snd (snd c)) with
  | None => []
  | Some (feed', entry') =>
      List.map (fun ch => (ch, str_format env (fmt feed') feed' entry'))
               (channels feed')
  end.

(** * Properties *)

(** ** The order on strings *)

Lemma str_compare_refl (a : str) : str_compare a a = Eq.
Proof.
  induction a as [|x a IH]; simpl; [reflexivity|].
  now rewrite N.compare_refl.
Qed.

Lemma str_compare_eq (a b : str) : str_compare a b = Eq -> a = b.
Proof.
  revert b; induction a as [|x a IH]; intros [|y b]; simpl;
    try discriminate; [reflexivity|].
  destruct (N.compare x y) eqn:C; try discriminate.
  apply N.compare_eq in C. intros H. f_equal; [exact C|exact (IH _ H)].
Qed.

Lemma str_compare_antisym (a b : str) :
  str_compare b a = CompOpp (str_compare a b).
Proof.
  revert b; induction a as [|x a IH]; intros [|y b]; simpl; try reflexivity.
  rewrite (N.compare_antisym x y).
  destruct (N.compare x y); simpl; auto.
Qed.

Lemma str_compare_lt_trans (a b c : str) :
  str_compare a b = Lt -> str_compare b c = Lt -> str_compare a c = Lt.
Proof.
  revert b c; induction a as [|x a IH]; intros [|y b] [|z c]; simpl;
    try discriminate; try reflexivity.
  destruct (N.compare x y) eqn:Cxy; try discriminate;
    destruct (N.compare y z) eqn:Cyz; try discriminate; intros H1 H2.
  - apply N.compare_eq in Cxy, Cyz; subst.
    rewrite N.compare_refl. eauto.
  - apply N.compare_eq in Cxy; subst. now rewrite Cyz.
  - apply N.compare_eq in Cyz; subst. now rewrite Cxy.
  - assert (N.compare x z = Lt) as ->; [|reflexivity].
    apply N.compare_lt_iff. apply N.compare_lt_iff in Cxy.
    apply N.compare_lt_iff in Cyz. exact (N.lt_trans _ _ _ Cxy Cyz).
Qed.

Lemma str_eqb_eq (a b : str) : str_eqb a b = true <-> a = b.
Proof.
  unfold str_eqb; split.
  - destruct (str_compare a b) eqn:C; try discriminate.
    intros _. now apply str_compare_eq.
  - intros ->. now rewrite str_compare_refl.
Qed.

Lemma str_leb_ltb (a b : str) : str_leb a b = negb (str_ltb b a).
Proof.
  unfold str_leb, str_ltb. rewrite (str_compare_antisym a b).
  destruct (str_compare a b); reflexivity.
Qed.

Lemma str_ltb_irrefl (a : str) : str_ltb a a = false.
Proof. unfold str_ltb. now rewrite str_compare_refl. Qed.

Lemma str_ltb_trans (a b c : str) :
  str_ltb a b = true -> str_ltb b c = true -> str_ltb a c = true.
Proof.
  unfold str_ltb.
  destruct (str_compare a b) eqn:C1; try discriminate.
  destruct (str_compare b c) eqn:C2; try discriminate.
  now rewrite (str_compare_lt_trans _ _ _ C1 C2).
Qed.

Lemma str_ltb_leb (a b : str) : str_ltb a b = true -> str_leb a b = true.
Proof.
  unfold str_ltb, str_leb. destruct (str_compare a b); auto; discriminate.
Qed.

Lemma str_leb_refl (a : str) : str_leb a a = true.
Proof. unfold str_leb. now rewrite str_compare_refl. Qed.

Lemma str_leb_trans (a b c : str) :
  str_leb a b = true -> str_leb b c = true -> str_leb a c = true.
Proof.
  unfold str_leb.
  destruct (str_compare a b) eqn:C1; try discriminate;
    destruct (str_compare b c) eqn:C2; try discriminate; intros _ _.
  - apply str_compare_eq in C1, C2; subst. now rewrite str_compare_refl.
  - apply str_compare_eq in C1; subst. now rewrite C2.
  - apply str_compare_eq in C2; subst. now rewrite C1.
  - now rewrite (str_compare_lt_trans _ _ _ C1 C2).
Qed.

(** Trichotomy, in the shape the sort needs: two different strings
    are ordered one way or the other. *)
Lemma str_ltb_total (a b : str) :
  a <> b -> str_ltb a b = false -> str_ltb b a = true.
Proof.
  unfold str_ltb. rewrite (str_compare_antisym a b).
  destruct (str_compare a b) eqn:C; simpl; auto; try discriminate.
  intros Hne _. apply str_compare_eq in C. contradiction.
Qed.

(** ** [sorted] *)

Lemma candidate_lt_cases (y x : candidate) :
  (fst y = fst x /\ snd y = snd x /\ candidate_lt y x = Ok false)
  \/ (fst y = fst x /\ snd y <> snd x /\ candidate_lt y x = Raise TypeError)
  \/ (fst y <> fst x /\ candidate_lt y x = Ok (str_ltb (fst y) (fst x))).
Proof.
  unfold candidate_lt.
  destruct (str_eqb (fst y) (fst x)) eqn:E.
  - apply str_eqb_eq in E.
    destruct (decide (snd y = snd x)) as [Hp|Hp].
    + left. rewrite bool_decide_eq_true_2 by exact Hp. auto.
    + right; left. rewrite bool_decide_eq_false_2 by exact Hp. auto.
  - right; right. split; [|reflexivity].
    intros Heq. apply str_eqb_eq in Heq. congruence.
Qed.

Lemma tie_free_cons_inv (x : candidate) (l : list candidate) :
  tie_free (x :: l) -> tie_free l.
Proof. intros H a b Ha Hb. apply H; now right. Qed.

Lemma insert_sorted_spec (x : candidate) (l : list candidate) :
  StronglySorted key_le l -> tie_free l ->
  (exists l', insert_sorted x l = Ok l' /\ Permutation (x :: l) l'
              /\ StronglySorted key_le l' /\ tie_free (x :: l))
  \/ (insert_sorted x l = Raise TypeError /\ has_tie (x :: l)).
Proof.
  induction l as [|y l IH]; intros Hs Ht.
  - left. exists [x]. simpl. repeat split; auto.
    + repeat constructor.
    + intros a b [<-|[]] [<-|[]] _. reflexivity.
  - inversion Hs as [|? ? Hs' Hy]; subst.
    simpl. destruct (candidate_lt_cases y x) as [(Hk & Hp & ->)|[(Hk & Hp & ->)|(Hk & ->)]];
      simpl.
    + (* the same candidate again *)
      left. exists (x :: y :: l). repeat split; auto.
      * constructor; [exact Hs|]. constructor.
        -- unfold key_le. rewrite <- Hk. apply str_leb_refl.
        -- eapply List.Forall_impl; [|exact Hy]. unfold key_le. simpl.
           intros a Ha. now rewrite <- Hk.
      * assert (x = y) as -> by (destruct x, y; simpl in *; congruence).
        intros a b Ha Hb. apply Ht.
        -- destruct Ha as [<-|Ha]; [now left|exact Ha].
        -- destruct Hb as [<-|Hb]; [now left|exact Hb].
    + (* a different candidate with the same timestamp *)
      right. split; [reflexivity|].
      exists y, x. repeat split; auto; [right; now left|now left].
    + destruct (str_ltb (fst y) (fst x)) eqn:Hlt.
      * (* y stays in front *)
        destruct (IH Hs' (tie_free_cons_inv _ _ Ht))
          as [(l' & -> & Hperm & Hsl' & Htl')|(-> & Htie)]; simpl.
        -- left. exists (y :: l'). repeat split; auto.
           ++ rewrite perm_swap. now constructor.
           ++ constructor; [exact Hsl'|].
              apply List.Forall_forall. intros a Ha.
              apply (Permutation_in _ (Permutation_sym Hperm)) in Ha.
              destruct Ha as [<-|Ha].
              ** now apply str_ltb_leb.
              ** rewrite List.Forall_forall in Hy. now apply Hy.
           ++ intros a b Ha Hb Hab.
              destruct Ha as [<-|[<-|Ha]], Hb as [<-|[<-|Hb]];
                try reflexivity; try congruence.
              ** apply Htl'; [now left|now right|exact Hab].
              ** apply Ht; [now left|now right|exact Hab].
              ** apply Htl'; [now right|now left|exact Hab].
              ** apply Ht; [now right|now left|exact Hab].
              ** apply Ht; [now right|now right|exact Hab].
        -- right. split; [reflexivity|].
           destruct Htie as (a & b & Ha & Hb & Hab & Hne).
           exists a, b. repeat split; auto.
           ++ destruct Ha as [<-|Ha]; [now left|right; now right].
           ++ destruct Hb as [<-|Hb]; [now left|right; now right].
      * (* x goes in front of y *)
        assert (Hxy : str_ltb (fst x) (fst y) = true)
          by (apply str_ltb_total; auto).
        left. exists (x :: y :: l). repeat split; auto.
        -- constructor; [exact Hs|]. constructor.
           ++ now apply str_ltb_leb.
           ++ eapply List.Forall_impl; [|exact Hy]. unfold key_le.
              intros a Ha. eapply str_leb_trans; [|exact Ha].
              now apply str_ltb_leb.
        -- assert (Hfresh : forall a, In a (y :: l) -> fst x <> fst a).
           { intros a Ha Heq.
             assert (str_leb (fst y) (fst a) = true) as Hle.
             { destruct Ha as [<-|Ha]; [apply str_leb_refl|].
               rewrite List.Forall_forall in Hy. now apply Hy. }
             rewrite <- Heq in Hle. rewrite str_leb_ltb in Hle.
             rewrite Hxy in Hle. discriminate. }
           intros a b Ha Hb Hab.
           destruct Ha as [<-|Ha], Hb as [<-|Hb]; try reflexivity.
           ++ exfalso. now apply (Hfresh b).
           ++ exfalso. now apply (Hfresh a).
           ++ now apply Ht.
Qed.

Lemma sorted_cases (l : list candidate) :
  (exists l', sorted l = Ok l' /\ Permutation l l'
              /\ StronglySorted key_le l' /\ tie_free l)
  \/ (sorted l = Raise TypeError /\ has_tie l).
Proof.
  induction l as [|x l IH].
  - left. exists []. simpl. repeat split; auto.
    + constructor.
    + intros a b [].
  - simpl. destruct IH as [(s & -> & Hperm & Hs & Ht)|(-> & Htie)]; simpl.
    + assert (Hts : tie_free s).
      { intros a b Ha Hb. apply Ht;
          eapply Permutation_in; try apply Permutation_sym; eauto. }
      destruct (insert_sorted_spec x s Hs Hts)
        as [(l' & -> & Hp' & Hs' & Ht')|(-> & Htie)].
      * left. exists l'. repeat split; auto.
        -- rewrite <- Hp'. now constructor.
        -- intros a b Ha Hb. apply Ht'.
           ++ destruct Ha as [<-|Ha]; [now left|right].
              eapply Permutation_in; eauto.
           ++ destruct Hb as [<-|Hb]; [now left|right].
              eapply Permutation_in; eauto.
      * right. split; [reflexivity|].
        destruct Htie as (a & b & Ha & Hb & Hab & Hne).
        exists a, b. repeat split; auto.
        -- destruct Ha as [<-|Ha]; [now left|right].
           eapply Permutation_in; [apply Permutation_sym|]; eauto.
        -- destruct Hb as [<-|Hb]; [now left|right].
           eapply Permutation_in; [apply Permutation_sym|]; eauto.
    + right. split; [reflexivity|].
      destruct Htie as (a & b & Ha & Hb & Hab & Hne).
      exists a, b. repeat split; auto; now right.
Qed.

Lemma has_tie_not_tie_free (l : list candidate) : has_tie l -> ~ tie_free l.
Proof. intros (a & b & Ha & Hb & Hab & Hne) Ht. apply Hne. now apply Ht. Qed.

(** [sorted] raises exactly when two different candidates share a
    timestamp, and what it raises is [TypeError]. *)
Lemma sorted_raises_iff (l : list candidate) :
  (exists e, sorted l = Raise e) <-> has_tie l.
Proof.
  destruct (sorted_cases l) as [(l' & E & _ & _ & Ht)|(E & Htie)]; split.
  - intros (e & He). congruence.
  - intros Htie. now apply has_tie_not_tie_free in Htie.
  - intros _. exact Htie.
  - intros _. eauto.
Qed.

(** When it returns, the result holds the same candidates in ascending
    order of timestamp. *)
Lemma sorted_ok_spec (l l' : list candidate) :
  sorted l = Ok l' ->
  Permutation l l' /\ StronglySorted key_le l' /\ tie_free l.
Proof.
  intros E. destruct (sorted_cases l) as [(s & E' & H)|(E' & _)];
    rewrite E in E'; [|discriminate].
  inversion E'; subst. exact H.
Qed.

(** ** [parse]: reading the watermark and accepting entries *)

Section ParseFacts.

Context (env : Collaborators).

Lemma read_updated_eq (fname : str) (s : state) :
  read_updated fname s = (s, Ok (stored_watermark (files s) fname)).
Proof.
  unfold read_updated, try_except, bind, open_read, ret, stored_watermark.
  destruct (read_file (files s) (fname ++ py ".updated")) as [text|e] eqn:R;
    [reflexivity|].
  unfold read_file in R.
  destruct (files s !! (fname ++ py ".updated")) as [f|];
    [destruct (readable f)|]; inversion R; reflexivity.
Qed.

Lemma read_file_raises_OSError (fs : gmap str file) (path : str) (e : exn) :
  read_file fs path = Raise e -> e = OSError.
Proof.
  unfold read_file. destruct (fs !! path) as [f|];
    [destruct (readable f)|]; congruence.
Qed.

(** The loop of [parse] over the decoded entries keeps, in order, the
    entries that are new, provided every entry above the watermark has
    a well-formed date. *)
Lemma scan_filter (args : Feed) (fname wm : str) (max_date : datetime)
  (es : list Entry) (acc : list candidate) :
  (forall e, In e es -> str_ltb wm (updated e) = true ->
             exists d, entry_datetime e = Ok d) ->
  scan args fname wm max_date es acc
  = Ok (acc ++ List.map (candidate_of args fname)
                        (List.filter (is_new wm max_date) es)).
Proof.
  revert acc; induction es as [|e es IH]; intros acc Hv; simpl.
  - now rewrite app_nil_r.
  - assert (Hv' : forall e', In e' es -> str_ltb wm (updated e') = true ->
                             exists d, entry_datetime e' = Ok d)
      by (intros e' He'; apply Hv; now right).
    unfold is_new at 1. rewrite str_leb_ltb.
    destruct (str_ltb wm (updated e)) eqn:Hlt; simpl.
    + destruct (Hv e (or_introl eq_refl) Hlt) as [d Hd].
      unfold entry_datetime in Hd |- *. rewrite Hd. simpl.
      rewrite (Z.leb_antisym d max_date).
      destruct (d <? max_date); simpl.
      * now apply IH.
      * rewrite IH by exact Hv'. rewrite <- app_assoc. reflexivity.
    + now apply IH.
Qed.

(** A malformed date above the watermark stops the loop. *)
Lemma scan_bad_date (args : Feed) (fname wm : str) (max_date : datetime)
  (e : Entry) (es : list Entry) (acc : list candidate) :
  str_ltb wm (updated e) = true ->
  entry_datetime e = Raise ValueError ->
  scan args fname wm max_date (e :: es) acc = Raise ValueError.
Proof.
  intros Hlt Hd. simpl. rewrite str_leb_ltb, Hlt. simpl.
  unfold entry_datetime in Hd. now rewrite Hd.
Qed.

Lemma is_new_iff (wm : str) (max_date : datetime) (e : Entry) :
  is_new wm max_date e = true
  <-> str_ltb wm (updated e) = true
      /\ exists d, entry_datetime e = Ok d /\ max_date <= d.
Proof.
  unfold is_new. rewrite andb_true_iff.
  destruct (entry_datetime e) as [d|x]; split.
  - intros [H1 H2]. split; [exact H1|]. exists d. split; [reflexivity|lia].
  - intros [H1 (d' & Hd & Hle)]. inversion Hd; subst. split; [exact H1|lia].
  - intros [_ H]. discriminate.
  - intros [_ (d & Hd & _)]. discriminate.
Qed.

(** The candidate determines the fields of the entry that decide
    whether it is new. *)
Lemma candidate_of_is_new (args : Feed) (fname wm : str) (md : datetime)
  (e e' : Entry) :
  candidate_of args fname e' = candidate_of args fname e ->
  is_new wm md e' = is_new wm md e.
Proof.
  unfold candidate_of, set_filename, is_new, entry_datetime.
  intros H.
  assert (Hu : updated e' = updated e) by (inversion H; auto).
  assert (Hp : updated_parsed e' = updated_parsed e) by (inversion H; auto).
  now rewrite Hu, Hp.
Qed.

Lemma in_scan_iff (args : Feed) (fname wm : str) (md : datetime)
  (es : list Entry) (e : Entry) :
  In e es ->
  (In (candidate_of args fname e)
      (List.map (candidate_of args fname) (List.filter (is_new wm md) es))
   <-> is_new wm md e = true).
Proof.
  intros He. rewrite in_map_iff. split.
  - intros (e' & Heq & Hin). apply filter_In in Hin as [_ Hn].
    now rewrite <- (candidate_of_is_new _ _ _ _ _ _ Heq).
  - intros Hn. exists e. split; [reflexivity|].
    apply filter_In. now split.
Qed.

(** One round of the loop over the files, spelled out: the watermark
    is written only after the sort of everything collected so far. *)
Lemma parse_file_unfold (args : Feed) (md : datetime)
  (entries : list candidate) (fname : str) (s : state) :
  parse_file env args md entries fname s
  = match feedparser_parse env (files s) fname with
    | Raise e => (s, Raise e)
    | Ok es =>
        match scan args fname (stored_watermark (files s) fname) md es entries
        with
        | Raise e => (s, Raise e)
        | Ok [] => (s, Ok [])
        | Ok (c :: l) =>
            match sorted (c :: l) with
            | Raise e => (s, Raise e)
            | Ok l' =>
                match last l' with
                | None => (s, Raise IndexError)
                | Some newest =>
                    match write_file (files s) (fname ++ py ".updated")
                                     (fst newest) with
                    | (fs, Ok _) =>
                        (MkState (self_feeds s) fs (ticks s) (log s) (sent s)
                                 (scheduled s), Ok l')
                    | (fs, Raise e) =>
                        (MkState (self_feeds s) fs (ticks s) (log s) (sent s)
                                 (scheduled s), Raise e)
                    end
                end
            end
        end
    end.
Proof.
  unfold parse_file. unfold bind at 1. rewrite read_updated_eq.
  unfold bind, get_files, lift, ret, raise, open_write.
  destruct (feedparser_parse env (files s) fname) as [es|e]; [|reflexivity].
  destruct (scan args fname (stored_watermark (files s) fname) md es entries)
    as [[|c l]|e]; try reflexivity.
  destruct (sorted (c :: l)) as [l'|e]; [|reflexivity].
  destruct (last l') as [newest|]; [|reflexivity].
  destruct (write_file (files s) (fname ++ py ".updated") (fst newest))
    as [fs [[]|e]]; reflexivity.
Qed.

End ParseFacts.

(** ** Accepting entries *)

Section Acceptance.

Context (env : Collaborators).

(** X19.  Within one cycle the filter of [parse] is this.  For
    every raw entry decoded from a storage location, the entry is
    accepted if and only if its raw timestamp is strictly greater than
    the watermark stored for that location and the datetime built from
    its parsed timestamp is not before the horizon (now minus two
    days); what [parse] returns for the location is a rearrangement of
    the accepted candidates.  The date fields of the decoded entries
    are assumed well formed. *)
Theorem new_entry_iff (s : state) (args : Feed) (fname : str)
  (max_date : datetime) (es : list Entry) :
  feedparser_parse env (files s) fname = Ok es ->
  (forall e, In e es -> exists d, entry_datetime e = Ok d) ->
  exists accepted,
    scan args fname (stored_watermark (files s) fname) max_date es []
    = Ok accepted
    /\ (forall s' out,
          parse_file env args max_date [] fname s = (s', Ok out) ->
          Permutation accepted out)
    /\ forall e, In e es ->
         (In (candidate_of args fname e) accepted
          <-> str_ltb (stored_watermark (files s) fname) (updated e) = true
              /\ exists d, entry_datetime e = Ok d /\ max_date <= d)
         /\ (str_leb (updated e) (stored_watermark (files s) fname) = true ->
             ~ In (candidate_of args fname e) accepted)
         /\ (forall d, entry_datetime e = Ok d -> d < max_date ->
             ~ In (candidate_of args fname e) accepted).
Proof.
  intros Hdec Hvalid.
  set (wm := stored_watermark (files s) fname).
  exists (List.map (candidate_of args fname)
                   (List.filter (is_new wm max_date) es)).
  assert (Hscan : scan args fname wm max_date es []
                  = Ok (List.map (candidate_of args fname)
                                 (List.filter (is_new wm max_date) es))).
  { rewrite scan_filter; [reflexivity|]. intros e He _. now apply Hvalid. }
  split; [exact Hscan|]. split.
  - intros s' out. rewrite parse_file_unfold, Hdec. fold wm. rewrite Hscan.
    destruct (List.map (candidate_of args fname)
                       (List.filter (is_new wm max_date) es)) as [|c l] eqn:E.
    + intros H. inversion H. constructor.
    + destruct (sorted (c :: l)) as [l'|x] eqn:Hs; [|intros H; inversion H].
      apply sorted_ok_spec in Hs as [Hperm _].
      destruct (last l'); [|intros H; inversion H].
      destruct (write_file _ _ _) as [fs [[]|x]]; intros H; inversion H.
      now subst.
  - intros e He.
    pose proof (in_scan_iff args fname wm max_date es e He) as Hin.
    pose proof (is_new_iff wm max_date e) as Hnew.
    split; [tauto|]. split.
    + intros Hle Hc. apply Hin, Hnew in Hc as [Hlt _].
      rewrite str_leb_ltb, Hlt in Hle. discriminate.
    + intros d Hd Hold Hc. apply Hin, Hnew in Hc as [_ (d' & Hd' & Hle)].
      rewrite Hd in Hd'. inversion Hd'; subst. lia.
Qed.

End Acceptance.

Lemma new_entry_iff_witness :
  feedparser_parse Sample.env (files Sample.mixed_state) (py "d/mixed.0.feed")
  = Ok [Sample.entry_a; Sample.entry_b; Sample.entry_o]
  /\ (forall e, In e [Sample.entry_a; Sample.entry_b; Sample.entry_o] ->
                exists d, entry_datetime e = Ok d)
  /\ exists accepted,
       scan Sample.mixed (py "d/mixed.0.feed")
            (stored_watermark (files Sample.mixed_state) (py "d/mixed.0.feed"))
            Sample.horizon
            [Sample.entry_a; Sample.entry_b; Sample.entry_o] []
       = Ok accepted
       /\ (forall s' out,
             parse_file Sample.env Sample.mixed Sample.horizon []
                        (py "d/mixed.0.feed") Sample.mixed_state = (s', Ok out) ->
             Permutation accepted out)
       /\ forall e, In e [Sample.entry_a; Sample.entry_b; Sample.entry_o] ->
            (In (candidate_of Sample.mixed (py "d/mixed.0.feed") e) accepted
             <-> str_ltb (stored_watermark (files Sample.mixed_state)
                                           (py "d/mixed.0.feed"))
                         (updated e) = true
                 /\ exists d, entry_datetime e = Ok d /\ Sample.horizon <= d)
            /\ (str_leb (updated e)
                        (stored_watermark (files Sample.mixed_state)
                                          (py "d/mixed.0.feed")) = true ->
                ~ In (candidate_of Sample.mixed (py "d/mixed.0.feed") e) accepted)
            /\ (forall d, entry_datetime e = Ok d -> d < Sample.horizon ->
                ~ In (candidate_of Sample.mixed (py "d/mixed.0.feed") e) accepted).
Proof.
  assert (H1 : feedparser_parse Sample.env (files Sample.mixed_state)
                                (py "d/mixed.0.feed")
               = Ok [Sample.entry_a; Sample.entry_b; Sample.entry_o])
    by (vm_compute; reflexivity).
  assert (H2 : forall e, In e [Sample.entry_a; Sample.entry_b; Sample.entry_o] ->
                         exists d, entry_datetime e = Ok d).
  { intros e [<-|[<-|[<-|[]]]]; eexists; vm_compute; reflexivity. }
  split; [exact H1|]. split; [exact H2|].
  exact (new_entry_iff Sample.env Sample.mixed_state Sample.mixed
                       (py "d/mixed.0.feed") Sample.horizon _ H1 H2).
Defined.

(** On the sample file, of the known, the new and the stale entry only
    the new one is accepted. *)
Example mixed_accepts_the_new_entry :
  scan Sample.mixed (py "d/mixed.0.feed")
       (stored_watermark (files Sample.mixed_state) (py "d/mixed.0.feed"))
       Sample.horizon [Sample.entry_a; Sample.entry_b; Sample.entry_o] []
  = Ok [candidate_of Sample.mixed (py "d/mixed.0.feed") Sample.entry_b].
Proof. vm_compute. reflexivity. Qed.

(** ** The fetch batch *)

(** C6, as the code has it.  A feed whose last fetch time is [T] and
    whose delay is [D] is in the fetch batch of a cycle triggered at
    [now] exactly when [T + D < now]: it is excluded at and before
    [T + D] and included strictly after. *)
Theorem batch_iff_strictly_after (now : Z) (f : Feed) (fl : list Feed) :
  In f (fetch_batch now fl) <-> In f fl /\ time f + delay f < now.
Proof.
  unfold fetch_batch, due. rewrite filter_In, Z.ltb_lt. intuition lia.
Qed.

(** C6 as stated fails on the boundary: at the trigger time [T + D]
    itself the feed is not in the batch. *)
Lemma batch_excludes_the_boundary :
  In Sample.first [Sample.first]
  /\ ~ In Sample.first
         (fetch_batch (time Sample.first + delay Sample.first) [Sample.first]).
Proof. split; [now left|]. vm_compute. intros []. Qed.

(** ** File names *)




(** The sample configuration: two feeds under two names, one file. *)
Example slash_names_collide :
  List.map (fun kf => (fst kf, filenames (snd kf)))
           (Feeds_init Sample.env Sample.config)
  = [(py "a/b", [py "d/a_b.0.feed"]); (py "a_b", [py "d/a_b.0.feed"])].
Proof. vm_compute. reflexivity. Qed.

(** ** What each phase leaves alone *)

Section Frames.

Context (env : Collaborators).

Local Ltac frame := simpl; repeat split; (reflexivity || assumption).

Lemma write_file_frame (s : state) (path text : str) :
  let s' := fst (open_write path text s) in
  self_feeds s' = self_feeds s /\ ticks s' = ticks s /\ log s' = log s
  /\ sent s' = sent s /\ scheduled s' = scheduled s.
Proof.
  unfold open_write. destruct (write_file (files s) path text). frame.
Qed.

(** One file of one feed: only the files change. *)
Lemma parse_file_frame (args : Feed) (md : datetime)
  (entries : list candidate) (fname : str) (s : state) :
  let s' := fst (parse_file env args md entries fname s) in
  self_feeds s' = self_feeds s /\ ticks s' = ticks s /\ log s' = log s
  /\ sent s' = sent s /\ scheduled s' = scheduled s.
Proof.
  rewrite parse_file_unfold.
  destruct (feedparser_parse env (files s) fname) as [es|e]; [|frame].
  destruct (scan args fname (stored_watermark (files s) fname) md es entries)
    as [[|c l]|e]; [frame| |frame].
  destruct (sorted (c :: l)) as [l'|e]; [|frame].
  destruct (last l') as [newest|]; [|frame].
  destruct (write_file (files s) (fname ++ py ".updated") (fst newest))
    as [fs [[]|e]]; frame.
Qed.

Lemma parse_files_frame (args : Feed) (md : datetime) (fnames : list str)
  (entries : list candidate) (s : state) :
  let s' := fst (parse_files env args md fnames entries s) in
  self_feeds s' = self_feeds s /\ ticks s' = ticks s /\ log s' = log s
  /\ sent s' = sent s /\ scheduled s' = scheduled s.
Proof.
  revert entries s; induction fnames as [|fname rest IH]; intros entries s;
    [frame|].
  simpl. unfold bind.
  pose proof (parse_file_frame args md entries fname s) as Hf.
  destruct (parse_file env args md entries fname s) as [s1 [found|e]];
    simpl in Hf.
  - pose proof (IH found s1) as Hr. simpl in Hr.
    destruct Hf as (<- & <- & <- & <- & <-). exact Hr.
  - exact Hf.
Qed.

(** One feed: the files change and the clock is read once. *)
Lemma parse_frame (args : Feed) (s : state) :
  let s' := fst (parse env args s) in
  self_feeds s' = self_feeds s /\ ticks s' = S (ticks s) /\ log s' = log s
  /\ sent s' = sent s /\ scheduled s' = scheduled s.
Proof.
  unfold parse, bind, datetime_datetime_now, lift.
  destruct (datetime_sub_days (datetime_now env (ticks s)) 2) as [md|e];
    [|frame].
  apply (parse_files_frame args md (filenames args) [] (tick s)).
Qed.

Lemma collect_frame (fl : list Feed) (entries : list candidate) (s : state) :
  let s' := fst (collect env fl entries s) in
  self_feeds s' = self_feeds s /\ log s' = log s
  /\ sent s' = sent s /\ scheduled s' = scheduled s.
Proof.
  revert entries s; induction fl as [|feed rest IH]; intros entries s;
    [frame|].
  simpl. unfold bind.
  pose proof (parse_frame feed s) as Hf.
  destruct (parse env feed s) as [s1 [found|e]]; simpl in Hf.
  - pose proof (IH (entries ++ found) s1) as Hr. simpl in Hr.
    destruct Hf as (<- & _ & <- & <- & <-). exact Hr.
  - simpl. tauto.
Qed.

(** [Feeds.parse], spelled out: all feeds are parsed, then the sort,
    then the messages. *)
Lemma Feeds_parse_unfold (self : Plugin) (s : state) :
  Feeds_parse env self s
  = match collect env (dict_values (self_feeds s)) [] s with
    | (sc, Raise e) => (sc, Raise e)
    | (sc, Ok entries) =>
        match sorted entries with
        | Raise e => (sc, Raise e)
        | Ok l =>
            (MkState (self_feeds sc) (files sc) (ticks sc) (log sc)
                     (sent sc ++ messages_from env self 0 l) (scheduled sc),
             Ok tt)
        end
    end.
Proof.
  unfold Feeds_parse, bind, get_feeds, lift, messages, rbind,
    call_many_privmsg.
  destruct (collect env (dict_values (self_feeds s)) [] s) as [sc [entries|e]];
    [|reflexivity].
  destruct (sorted entries); reflexivity.
Qed.

Lemma Feeds_parse_frame (self : Plugin) (s : state) :
  let s' := fst (Feeds_parse env self s) in
  self_feeds s' = self_feeds s /\ log s' = log s
  /\ scheduled s' = scheduled s
  /\ files s' = files (fst (collect env (dict_values (self_feeds s)) [] s))
  /\ ticks s' = ticks (fst (collect env (dict_values (self_feeds s)) [] s)).
Proof.
  rewrite Feeds_parse_unfold.
  pose proof (collect_frame (dict_values (self_feeds s)) [] s) as Hc.
  destruct (collect env (dict_values (self_feeds s)) [] s) as [sc [entries|e]];
    simpl in Hc; destruct Hc as (H1 & H2 & H3 & H4); [|frame].
  destruct (sorted entries); frame.
Qed.

Lemma set_time_frame (fname : str) (s : state) :
  let s' := fst (set_time env fname s) in
  files s' = files s /\ log s' = log s /\ sent s' = sent s
  /\ scheduled s' = scheduled s.
Proof.
  unfold set_time. destruct (dict_get (self_feeds s) fname); frame.
Qed.

Lemma consume_frame (results : list (result str)) (s : state) :
  let s' := fst (consume env results s) in
  files s' = files s /\ log s' = log s /\ sent s' = sent s
  /\ scheduled s' = scheduled s.
Proof.
  revert s; induction results as [|[fname|e] rest IH]; intros s;
    [frame| |frame].
  simpl. unfold bind.
  pose proof (set_time_frame fname s) as Hf.
  destruct (set_time env fname s) as [s1 [[]|e]]; simpl in Hf.
  - pose proof (IH s1) as Hr. simpl in Hr.
    destruct Hf as (<- & <- & <- & <-). exact Hr.
  - exact Hf.
Qed.

(** [Feeds.fetch], spelled out. *)
Lemma Feeds_fetch_unfold (self : Plugin) (s : state) :
  Feeds_fetch env self s
  = if bot_testing self then (tick s, Ok tt)
    else
      match fetch_batch (time_time env (ticks s)) (dict_values (self_feeds s))
      with
      | [] => (tick s, Ok tt)
      | f :: b =>
          consume env
            (snd (executor_map env (f :: b) false (files s)))
            (MkState (self_feeds s)
                     (fst (executor_map env (f :: b) false (files s)))
                     (S (ticks s))
                     (log s ++ [LogInfo (List.map name (f :: b))])
                     (sent s) (scheduled s))
      end.
Proof.
  unfold Feeds_fetch, bind, time_time_now, get_feeds, ret.
  destruct (bot_testing self); [reflexivity|].
  cbn [fst snd tick self_feeds ticks].
  destruct (fetch_batch (time_time env (ticks s)) (dict_values (self_feeds s)))
    as [|f batch]; [reflexivity|].
  unfold log_append, run_pool, tick.
  cbn [fst snd files self_feeds ticks log sent scheduled].
  destruct (executor_map env (f :: batch) false (files s)) as [fs rs].
  reflexivity.
Qed.

(** The fetch phase sends nothing and schedules nothing. *)
Lemma Feeds_fetch_frame (self : Plugin) (s : state) :
  let s' := fst (Feeds_fetch env self s) in
  sent s' = sent s /\ scheduled s' = scheduled s.
Proof.
  rewrite Feeds_fetch_unfold.
  destruct (bot_testing self); [frame|].
  destruct (fetch_batch (time_time env (ticks s)) (dict_values (self_feeds s)))
    as [|f batch]; [frame|].
  match goal with |- context [consume env ?rs ?st] =>
    pose proof (consume_frame rs st) as Hc end.
  simpl in Hc |- *. tauto.
Qed.

End Frames.

(** ** The update cycle *)

Section Cycle.

Context (env : Collaborators).

Lemma after_phase_frame (r : result unit) (s : state) :
  self_feeds (after_phase r s) = self_feeds s
  /\ files (after_phase r s) = files s
  /\ ticks (after_phase r s) = ticks s
  /\ sent (after_phase r s) = sent s
  /\ scheduled (after_phase r s) = scheduled s.
Proof. destruct r; simpl; repeat split; reflexivity. Qed.

(** [Feeds.update], spelled out: both phases run, each behind its own
    handler, and the function returns. *)
Lemma update_unfold (self : Plugin) (s : state) :
  update env self s
  = let s1 := after_phase (snd (Feeds_fetch env self s))
                          (fst (Feeds_fetch env self s)) in
    let s2 := after_phase (snd (Feeds_parse env self s1))
                          (fst (Feeds_parse env self s1)) in
    (if bot_loop self then fst (call_later (self_delay self) s2) else s2,
     Ok tt).
Proof.
  unfold update, bind, try_except, is_Exception.
  destruct (Feeds_fetch env self s) as [s1 [[]|e1]]; simpl;
    match goal with |- context [Feeds_parse env self ?st] =>
      destruct (Feeds_parse env self st) as [s2 [[]|e2]] end; simpl;
    destruct (bot_loop self); reflexivity.
Qed.

(** The fetch phase does not look at the hook. *)
Lemma Feeds_fetch_with_hook (self : Plugin)
  (h : nat -> Feed -> Entry -> option (Feed * Entry)) (s : state) :
  Feeds_fetch env (with_hook self h) s = Feeds_fetch env self s.
Proof. reflexivity. Qed.

(** Whatever the hook, the parse phase leaves the same files. *)
Lemma Feeds_parse_files_any_hook (self self' : Plugin) (s : state) :
  files (fst (Feeds_parse env self s)) = files (fst (Feeds_parse env self' s)).
Proof.
  destruct (Feeds_parse_frame env self s) as (_ & _ & _ & -> & _).
  destruct (Feeds_parse_frame env self' s) as (_ & _ & _ & -> & _).
  reflexivity.
Qed.

(** The generator [messages] yields nothing when the hook returns
    none at each call it receives: the [j]-th candidate of the list is
    handed over with the index [i + j]. *)
Lemma messages_from_silent (self : Plugin) (i : nat) (l : list candidate) :
  (forall j u feed entry,
     l !! j = Some (u, (feed, entry)) ->
     self_hook self (i + j) feed entry = None) ->
  messages_from env self i l = [].
Proof.
  revert i; induction l as [|[u [feed entry]] l IH]; intros i Hnone;
    simpl; [reflexivity|].
  pose proof (Hnone 0%nat u feed entry eq_refl) as H0.
  rewrite Nat.add_0_r in H0. rewrite H0.
  apply IH. intros j u' feed' entry' Hj.
  replace (S i + j)%nat with (i + S j)%nat by lia.
  apply (Hnone (S j) u'). exact Hj.
Qed.

Lemma Feeds_parse_silent (self : Plugin) (s : state) :
  (forall entries l,
     snd (collect env (dict_values (self_feeds s)) [] s) = Ok entries ->
     sorted entries = Ok l ->
     forall i u feed entry,
       l !! i = Some (u, (feed, entry)) -> self_hook self i feed entry = None) ->
  sent (fst (Feeds_parse env self s)) = sent s.
Proof.
  intros Hnone. rewrite Feeds_parse_unfold.
  pose proof (collect_frame env (dict_values (self_feeds s)) [] s) as Hc.
  destruct (collect env (dict_values (self_feeds s)) [] s) as [sc [entries|e]];
    simpl in Hc; destruct Hc as (_ & _ & Hsent & _); [|exact Hsent].
  destruct (sorted entries) as [l|e] eqn:Hs; simpl; [|exact Hsent].
  rewrite messages_from_silent; [now rewrite app_nil_r|].
  intros j u feed entry Hj. simpl.
  exact (Hnone entries l eq_refl Hs j u feed entry Hj).
Qed.

(** C8, as the code has it.  In every update cycle the fetch phase
    runs behind a handler, the parse-and-notify phase runs next on the
    state the fetch phase left (its exception, if any, only logged), an
    exception of the parse phase is logged as well, and [update] itself
    returns normally.  The next cycle is scheduled after the global
    delay whenever the bot has an event loop, whatever failed; without
    an event loop nothing is scheduled. *)
Theorem update_always_finishes (self : Plugin) (s : state) :
  exists s1 r1 s2 r2,
    Feeds_fetch env self s = (s1, r1)
    /\ Feeds_parse env self (after_phase r1 s1) = (s2, r2)
    /\ update env self s
       = (if bot_loop self
          then fst (call_later (self_delay self) (after_phase r2 s2))
          else after_phase r2 s2, Ok tt)
    /\ (forall e, r1 = Raise e ->
                  In (LogException e) (log (fst (update env self s))))
    /\ (forall e, r2 = Raise e ->
                  In (LogException e) (log (fst (update env self s))))
    /\ scheduled (fst (update env self s))
       = scheduled s ++ (if bot_loop self then [self_delay self] else []).
Proof.
  rewrite update_unfold.
  pose proof (Feeds_fetch_frame env self s) as Hf.
  destruct (Feeds_fetch env self s) as [s1 r1]. simpl in Hf.
  cbn [fst snd].
  pose proof (Feeds_parse_frame env self (after_phase r1 s1)) as Hp.
  destruct (Feeds_parse env self (after_phase r1 s1)) as [s2 r2] eqn:Ep.
  cbn [fst snd] in Hp |- *.
  exists s1, r1, s2, r2. split; [reflexivity|]. split; [exact Ep|].
  split; [reflexivity|].
  destruct Hp as (_ & Hlog & Hsched & _).
  split; [|split].
  - intros e ->.
    assert (In (LogException e) (log (after_phase r2 s2))).
    { destruct r2; simpl; [|apply in_or_app; left];
        rewrite Hlog; simpl; apply in_or_app; right; now left. }
    destruct (bot_loop self); simpl; assumption.
  - intros e ->.
    assert (In (LogException e) (log (after_phase (Raise e) s2)))
      by (simpl; apply in_or_app; right; now left).
    destruct (bot_loop self); simpl; assumption.
  - destruct (after_phase_frame r2 s2) as (_ & _ & _ & _ & Hs2).
    destruct (after_phase_frame r1 s1) as (_ & _ & _ & _ & Hs1).
    destruct Hf as [_ Hf].
    destruct (bot_loop self); simpl; rewrite ?app_nil_r; congruence.
Qed.

(** C7.  If the hook returns none for every candidate of a cycle,
    that is, at each of the calls it receives in the cycle (the
    candidates that the parse phase collects from the state the fetch
    phase left, sorted, each handed to the hook with its position in
    that order), the cycle dispatches no (channel, message) pair, and
    the files it leaves, the watermarks among them, are the ones that
    the default hook leaves: watermarks do not depend on the hook.
    Nothing is asked of the hook at any other index or on any other
    entry. *)
Theorem silent_hook_sends_nothing (self : Plugin) (s : state) :
  let s1 := after_phase (snd (Feeds_fetch env self s))
                        (fst (Feeds_fetch env self s)) in
  (forall entries l,
     snd (collect env (dict_values (self_feeds s1)) [] s1) = Ok entries ->
     sorted entries = Ok l ->
     forall i u feed entry,
       l !! i = Some (u, (feed, entry)) -> self_hook self i feed entry = None) ->
  sent (fst (update env self s)) = sent s
  /\ files (fst (update env self s))
     = files (fst (update env (with_hook self default_hook) s))
  /\ forall fname,
       stored_watermark (files (fst (update env self s))) fname
       = stored_watermark
           (files (fst (update env (with_hook self default_hook) s))) fname.
Proof.
  intros s1 Hnone.
  assert (Hfiles : files (fst (update env self s))
                   = files (fst (update env (with_hook self default_hook) s))).
  { rewrite !update_unfold. rewrite Feeds_fetch_with_hook. fold s1.
    assert (Hp : files (after_phase (snd (Feeds_parse env self s1))
                                    (fst (Feeds_parse env self s1)))
                 = files (after_phase
                            (snd (Feeds_parse env (with_hook self default_hook)
                                              s1))
                            (fst (Feeds_parse env (with_hook self default_hook)
                                              s1)))).
    { destruct (after_phase_frame (snd (Feeds_parse env self s1))
                  (fst (Feeds_parse env self s1))) as (_ & -> & _).
      destruct (after_phase_frame
                  (snd (Feeds_parse env (with_hook self default_hook) s1))
                  (fst (Feeds_parse env (with_hook self default_hook) s1)))
        as (_ & -> & _).
      apply Feeds_parse_files_any_hook. }
    cbn [fst with_hook bot_loop self_delay].
    destruct (bot_loop self); simpl; exact Hp. }
  split; [|split].
  - rewrite update_unfold. cbn [fst]. fold s1.
    assert (sent s1 = sent s) as Hs1.
    { unfold s1. destruct (after_phase_frame (snd (Feeds_fetch env self s))
                            (fst (Feeds_fetch env self s)))
        as (_ & _ & _ & -> & _).
      apply Feeds_fetch_frame. }
    assert (sent (after_phase (snd (Feeds_parse env self s1))
                              (fst (Feeds_parse env self s1))) = sent s).
    { destruct (after_phase_frame (snd (Feeds_parse env self s1))
                  (fst (Feeds_parse env self s1))) as (_ & _ & _ & -> & _).
      rewrite Feeds_parse_silent by exact Hnone. exact Hs1. }
    destruct (bot_loop self); simpl; assumption.
  - exact Hfiles.
  - intros fname. now rewrite Hfiles.
Qed.

End Cycle.

Lemma silent_hook_sends_nothing_witness :
  let self := Sample.plugin Sample.drop_first true in
  let s := Sample.mixed_state in
  let s1 := after_phase (snd (Feeds_fetch Sample.env self s))
                        (fst (Feeds_fetch Sample.env self s)) in
  (forall entries l,
     snd (collect Sample.env (dict_values (self_feeds s1)) [] s1) = Ok entries ->
     sorted entries = Ok l ->
     forall i u feed entry,
       l !! i = Some (u, (feed, entry)) -> self_hook self i feed entry = None)
  /\ sent (fst (update Sample.env self s)) = sent s
  /\ files (fst (update Sample.env self s))
     = files (fst (update Sample.env (with_hook self default_hook) s))
  /\ forall fname,
       stored_watermark (files (fst (update Sample.env self s))) fname
       = stored_watermark
           (files (fst (update Sample.env (with_hook self default_hook) s)))
           fname.
Proof.
  intros self s s1.
  assert (H : forall entries l,
            snd (collect Sample.env (dict_values (self_feeds s1)) [] s1)
            = Ok entries ->
            sorted entries = Ok l ->
            forall i u feed entry,
              l !! i = Some (u, (feed, entry)) ->
              self_hook self i feed entry = None).
  { intros entries l Hc Hs i u feed entry Hl.
    vm_compute in Hc. injection Hc as <-.
    vm_compute in Hs. injection Hs as <-.
    destruct i as [|i]; [reflexivity|].
    destruct i; discriminate Hl. }
  split; [exact H|].
  exact (silent_hook_sends_nothing Sample.env self s H).
Defined.

(** The hook of the witness answers at every index but the first; the
    cycle holds one candidate, so the hook is silent in that cycle
    although it is not a silent hook. *)
Example drop_first_is_not_silent :
  self_hook (Sample.plugin Sample.drop_first true) 1 Sample.mixed
            Sample.entry_b
  = Some (Sample.mixed, Sample.entry_b)
  /\ sent (fst (update Sample.env (Sample.plugin default_hook true)
                       Sample.mixed_state))
     = [(py "#chan", py "mixed B")]
  /\ sent (fst (update Sample.env (Sample.plugin Sample.drop_first true)
                       Sample.mixed_state)) = [].
Proof. vm_compute. repeat split; reflexivity. Qed.

(** On the sample file the default hook announces the new entry and the
    silent hook does not, and both leave the watermark on 01-20. *)
Example silent_hook_on_the_sample :
  sent (fst (Feeds_parse Sample.env (Sample.plugin default_hook true)
                         Sample.mixed_state))
  = [(py "#chan", py "mixed B")]
  /\ sent (fst (Feeds_parse Sample.env (Sample.plugin Sample.drop_all true)
                            Sample.mixed_state)) = []
  /\ stored_watermark
       (files (fst (Feeds_parse Sample.env (Sample.plugin default_hook true)
                                Sample.mixed_state))) (py "d/mixed.0.feed")
     = py "2024-01-20T00:00:00Z"
  /\ stored_watermark
       (files (fst (Feeds_parse Sample.env
                      (Sample.plugin Sample.drop_all true)
                      Sample.mixed_state))) (py "d/mixed.0.feed")
     = py "2024-01-20T00:00:00Z".
Proof. vm_compute. repeat split; reflexivity. Qed.

(** C8 as stated fails without an event loop: the cycle runs (here
    both of its phases fail and are logged) and nothing is scheduled. *)
Lemma no_loop_no_next_cycle :
  bot_loop (Sample.plugin default_hook false) = false
  /\ snd (update Sample.env (Sample.plugin default_hook false)
                 Sample.fetch_state) = Ok tt
  /\ log (fst (update Sample.env (Sample.plugin default_hook false)
                      Sample.fetch_state))
     = [LogInfo [py "first"; py "middle"; py "final"];
        LogException (External (py "ConnectionError"));
        LogException TypeError]
  /\ scheduled (fst (update Sample.env (Sample.plugin default_hook false)
                            Sample.fetch_state)) = [].
Proof. vm_compute. repeat split; reflexivity. Qed.

(** ** Decode failures *)

Section DecodeFailure.

Context (env : Collaborators).

Lemma parse_file_decode_failure (args : Feed) (md : datetime)
  (entries : list candidate) (fname : str) (s : state) (e : exn) :
  feedparser_parse env (files s) fname = Raise e ->
  parse_file env args md entries fname s = (s, Raise e).
Proof. intros H. rewrite parse_file_unfold, H. reflexivity. Qed.

Lemma parse_files_app (args : Feed) (md : datetime) (p1 p2 : list str)
  (entries : list candidate) (s : state) :
  parse_files env args md (p1 ++ p2) entries s
  = match parse_files env args md p1 entries s with
    | (s1, Ok found) => parse_files env args md p2 found s1
    | (s1, Raise e) => (s1, Raise e)
    end.
Proof.
  revert entries s; induction p1 as [|fname p1 IH]; intros entries s;
    [reflexivity|].
  simpl. unfold bind.
  destruct (parse_file env args md entries fname s) as [s1 [found|e]];
    [apply IH|reflexivity].
Qed.

Lemma collect_app (pre post : list Feed) (entries : list candidate)
  (s : state) :
  collect env (pre ++ post) entries s
  = match collect env pre entries s with
    | (s1, Ok found) => collect env post found s1
    | (s1, Raise e) => (s1, Raise e)
    end.
Proof.
  revert entries s; induction pre as [|feed pre IH]; intros entries s;
    [reflexivity|].
  simpl. unfold bind.
  destruct (parse env feed s) as [s1 [found|e]]; [apply IH|reflexivity].
Qed.

Lemma parse_unfold (args : Feed) (s : state) :
  parse env args s
  = match datetime_sub_days (datetime_now env (ticks s)) 2 with
    | Ok max_date => parse_files env args max_date (filenames args) [] (tick s)
    | Raise e => (tick s, Raise e)
    end.
Proof.
  unfold parse, bind, datetime_datetime_now, lift.
  destruct (datetime_sub_days (datetime_now env (ticks s)) 2); reflexivity.
Qed.

(** C5, as the code has it.  A decode failure (an exception of the
    decoder) at one storage location is not contained to that
    location.  When the feeds before [X] and the files of [X] before
    [fname] were parsed and the decoder raises on [fname], the parse
    phase ends there with that exception, in the state [s1] that the
    earlier locations left: the failing location, the later files of
    [X] and the feeds after [X] are not parsed, and nothing is sent,
    not even the entries accepted before the failure. *)
Theorem decode_failure_ends_parse_phase (self : Plugin) (s : state)
  (pre post : list Feed) (X : Feed) (p1 p2 : list str) (fname : str)
  (s0 s1 : state) (found0 found1 : list candidate) (max_date : datetime)
  (e : exn) :
  dict_values (self_feeds s) = pre ++ X :: post ->
  filenames X = p1 ++ fname :: p2 ->
  collect env pre [] s = (s0, Ok found0) ->
  datetime_sub_days (datetime_now env (ticks s0)) 2 = Ok max_date ->
  parse_files env X max_date p1 [] (tick s0) = (s1, Ok found1) ->
  feedparser_parse env (files s1) fname = Raise e ->
  parse env X s0 = (s1, Raise e)
  /\ Feeds_parse env self s = (s1, Raise e)
  /\ sent s1 = sent s.
Proof.
  intros Hfeeds Hfiles Hpre Hmd Hp1 Hdec.
  assert (HX : parse env X s0 = (s1, Raise e)).
  { rewrite parse_unfold, Hmd, Hfiles, parse_files_app, Hp1. simpl.
    unfold bind. now rewrite (parse_file_decode_failure _ _ _ _ _ _ Hdec). }
  split; [exact HX|]. split.
  - rewrite Feeds_parse_unfold, Hfeeds, collect_app, Hpre. simpl.
    unfold bind. now rewrite HX.
  - pose proof (collect_frame env pre [] s) as Hc. rewrite Hpre in Hc.
    pose proof (parse_frame env X s0) as Hx. rewrite HX in Hx.
    simpl in Hc, Hx. destruct Hc as (_ & _ & Hc & _).
    destruct Hx as (_ & _ & _ & Hx & _). congruence.
Qed.

End DecodeFailure.

Lemma decode_failure_ends_parse_phase_witness :
  let s := Sample.late_broken_state in
  let s0 := fst (collect Sample.env [Sample.right] [] s) in
  let found0 := [candidate_of Sample.right (py "d/right.0.feed")
                              Sample.entry_b] in
  dict_values (self_feeds s) = [Sample.right] ++ Sample.left :: []
  /\ filenames Sample.left = [] ++ py "d/left.0.feed" :: []
  /\ collect Sample.env [Sample.right] [] s = (s0, Ok found0)
  /\ datetime_sub_days (datetime_now Sample.env (ticks s0)) 2
     = Ok Sample.horizon
  /\ parse_files Sample.env Sample.left Sample.horizon [] [] (tick s0)
     = (tick s0, Ok [])
  /\ feedparser_parse Sample.env (files (tick s0)) (py "d/left.0.feed")
     = Raise (External (py "decoder"))
  /\ parse Sample.env Sample.left s0
     = (tick s0, Raise (External (py "decoder")))
  /\ Feeds_parse Sample.env (Sample.plugin default_hook true) s
     = (tick s0, Raise (External (py "decoder")))
  /\ sent (tick s0) = sent s.
Proof.
  intros s s0 found0.
  assert (H1 : dict_values (self_feeds s) = [Sample.right] ++ Sample.left :: [])
    by reflexivity.
  assert (H2 : filenames Sample.left = [] ++ py "d/left.0.feed" :: [])
    by reflexivity.
  assert (H3 : collect Sample.env [Sample.right] [] s = (s0, Ok found0))
    by (vm_compute; reflexivity).
  assert (H4 : datetime_sub_days (datetime_now Sample.env (ticks s0)) 2
               = Ok Sample.horizon) by (vm_compute; reflexivity).
  assert (H5 : parse_files Sample.env Sample.left Sample.horizon [] []
                           (tick s0) = (tick s0, Ok [])) by reflexivity.
  assert (H6 : feedparser_parse Sample.env (files (tick s0))
                                (py "d/left.0.feed")
               = Raise (External (py "decoder"))) by (vm_compute; reflexivity).
  split; [exact H1|]. split; [exact H2|]. split; [exact H3|].
  split; [exact H4|]. split; [exact H5|]. split; [exact H6|].
  exact (decode_failure_ends_parse_phase Sample.env
           (Sample.plugin default_hook true) s [Sample.right] []
           Sample.left [] [] (py "d/left.0.feed") s0 (tick s0) found0 []
           Sample.horizon (External (py "decoder")) H1 H2 H3 H4 H5 H6).
Defined.

(** In that run the healthy feed was parsed first: its entry was
    accepted and its watermark advanced, and the entry is never sent. *)
Example accepted_entry_lost_after_decode_failure :
  let s' := fst (Feeds_parse Sample.env (Sample.plugin default_hook true)
                             Sample.late_broken_state) in
  sent s' = []
  /\ stored_watermark (files Sample.late_broken_state) (py "d/right.0.feed")
     = py "0"
  /\ stored_watermark (files s') (py "d/right.0.feed")
     = py "2024-01-20T00:00:00Z".
Proof. vm_compute. repeat split; reflexivity. Qed.

(** C5 as stated fails: the decoder raises on the file of the first
    feed; the file of the second feed holds a new entry (parsing that
    feed alone accepts it), yet the parse phase raises, the second
    location is never parsed (its watermark is not written) and nothing
    is sent. *)
Lemma decode_failure_not_contained :
  let self := Sample.plugin default_hook true in
  let r := Feeds_parse Sample.env self Sample.broken_state in
  feedparser_parse Sample.env (files Sample.broken_state) (py "d/left.0.feed")
  = Raise (External (py "decoder"))
  /\ snd (parse Sample.env Sample.right Sample.broken_state)
     = Ok [candidate_of Sample.right (py "d/right.0.feed") Sample.entry_b]
  /\ snd r = Raise (External (py "decoder"))
  /\ sent (fst r) = []
  /\ files (fst r) !! py "d/right.0.feed.updated" = None
  /\ files (fst r) = files Sample.broken_state.
Proof. vm_compute. repeat split; reflexivity. Qed.

(** ** Fetch failures *)

Section FetchFailure.

Context (env : Collaborators).

Lemma dict_get_set_eq {V} (d : list (str * V)) (k : str) (v : V) :
  dict_get (dict_set d k v) k = Some v.
Proof.
  induction d as [|[k' v'] d IH]; simpl.
  - now rewrite decide_True.
  - destruct (decide (k' = k)) as [->|Hne]; simpl.
    + now rewrite decide_True.
    + now rewrite decide_False.
Qed.

Lemma dict_get_set_ne {V} (d : list (str * V)) (k k' : str) (v : V) :
  k <> k' -> dict_get (dict_set d k v) k' = dict_get d k'.
Proof.
  intros Hne. induction d as [|[k0 v0] d IH]; simpl.
  - now rewrite decide_False.
  - destruct (decide (k0 = k)) as [->|Hne0]; simpl.
    + now rewrite !decide_False.
    + destruct (decide (k0 = k')); [reflexivity|exact IH].
Qed.

Lemma fetch_urls_app (hdrs : list (str * str)) (p1 p2 : list (str * str))
  (fs : gmap str file) :
  fetch_urls env hdrs (p1 ++ p2) fs
  = match fetch_urls env hdrs p1 fs with
    | (fs1, Ok _) => fetch_urls env hdrs p2 fs1
    | (fs1, Raise e) => (fs1, Raise e)
    end.
Proof.
  revert fs; induction p1 as [|[u fn] p1 IH]; intros fs; [reflexivity|].
  simpl. destruct (requests_get env u hdrs) as [c|e]; [|reflexivity].
  destruct (write_file fs fn c) as [fs' [[]|e]]; [apply IH|reflexivity].
Qed.

(** The URLs after the one that fails are not fetched: [fetch] ends in
    the files that the URLs before it left. *)
Lemma fetch_stops_at_failure (X : Feed) (p1 p2 : list (str * str))
  (u fn : str) (fs fs1 : gmap str file) (e : exn) :
  combine (feeds X) (filenames X) = p1 ++ (u, fn) :: p2 ->
  fetch_urls env (headers X) p1 fs = (fs1, Ok tt) ->
  requests_get env u (headers X) = Raise e ->
  fetch env X fs = (fs1, Raise e).
Proof.
  intros Hc Hp1 Hu. unfold fetch. rewrite Hc, fetch_urls_app, Hp1. simpl.
  now rewrite Hu.
Qed.

Lemma fetch_ok_name (f : Feed) (fs fs' : gmap str file) (n : str) :
  fetch env f fs = (fs', Ok n) -> n = name f.
Proof.
  unfold fetch.
  destruct (fetch_urls env (headers f) (combine (feeds f) (filenames f)) fs)
    as [fs0 [[]|e]]; intros H; inversion H; reflexivity.
Qed.

(** The pool on a batch whose first failure is [X]. *)
Lemma executor_map_first_failure (pre post : list Feed) (X : Feed)
  (fs fs1 fs2 : gmap str file) (e : exn) :
  fetch_all env pre fs = Some fs1 ->
  fetch env X fs1 = (fs2, Raise e) ->
  executor_map env (pre ++ X :: post) false fs
  = (fst (executor_map env post true fs2),
     List.map (fun f => Ok (name f)) pre
     ++ Raise e :: snd (executor_map env post true fs2)).
Proof.
  revert fs; induction pre as [|f pre IH]; intros fs Hall HX.
  - simpl in Hall. inversion Hall; subst. simpl. rewrite HX.
    destruct (executor_map env post true fs2). reflexivity.
  - simpl in Hall |- *.
    destruct (fetch env f fs) as [fs' [n|x]] eqn:Ef; [|discriminate].
    apply fetch_ok_name in Ef as ->.
    rewrite (IH fs' Hall HX). reflexivity.
Qed.

(** Reading the results up to the first failure: the feeds named
    before it get a fresh clock reading, every other key of
    [self.feeds] keeps its value, and the failure is raised. *)
Lemma consume_first_failure (names : list str)
  (rest : list (result str)) (e : exn) (s : state) :
  (forall n, In n names -> is_Some (dict_get (self_feeds s) n)) ->
  exists s',
    consume env (List.map Ok names ++ Raise e :: rest) s = (s', Raise e)
    /\ (forall k, ~ In k names ->
                  dict_get (self_feeds s') k = dict_get (self_feeds s) k)
    /\ (forall n, In n names ->
          exists f' j, dict_get (self_feeds s') n = Some f'
                       /\ time f' = time_time env j
                       /\ (ticks s <= j)%nat).
Proof.
  revert s; induction names as [|n names IH]; intros s Hkeys.
  - exists s. simpl. split; [reflexivity|]. split; [auto|intros n []].
  - simpl. unfold bind, set_time.
    destruct (Hkeys n (or_introl eq_refl)) as [feed Hfeed]. rewrite Hfeed.
    set (feed' := MkFeed _ _ _ _ _ _ _ _).
    set (s1 := MkState _ _ _ _ _ _).
    assert (Hkeys1 : forall m, In m names ->
                               is_Some (dict_get (self_feeds s1) m)).
    { intros m Hm. simpl. destruct (decide (n = m)) as [->|Hne].
      - rewrite dict_get_set_eq. eauto.
      - rewrite dict_get_set_ne by exact Hne. apply Hkeys. now right. }
    destruct (IH s1 Hkeys1) as (s' & Hs' & Hother & Hset).
    exists s'. split; [exact Hs'|]. split.
    + intros k Hk. rewrite Hother by (intros H; apply Hk; now right).
      simpl. apply dict_get_set_ne. intros ->. apply Hk. now left.
    + intros m [<-|Hm].
      * destruct (List.in_dec (fun a b : str => decide (a = b)) n names)
          as [Hin|Hout].
        -- destruct (Hset n Hin) as (f' & j & H1 & H2 & H3).
           exists f', j. repeat split; auto. simpl in H3. lia.
        -- exists feed', (ticks s). rewrite (Hother n Hout). simpl.
           rewrite dict_get_set_eq. repeat split; auto.
      * destruct (Hset m Hm) as (f' & j & H1 & H2 & H3).
        exists f', j. repeat split; auto. simpl in H3. lia.
Qed.

(** The first failing feed of a batch, in general.  When the batch of
    a fetch phase is [pre ++ X :: post], the feeds of [pre] are fetched
    without error and the URL [u] of [X] raises after the URLs [p1] of
    [X] were fetched, then: [fetch] of [X] ends at [u], in the files
    that [p1] left, so the remaining URLs of [X] are aborted; the
    handler of [fetch] re-raises, so the exception leaves [fetch], is
    raised again by the iteration over [executor.map] and leaves the
    whole fetch phase; the feeds of [pre] have a new last fetch time;
    the last fetch time of [X] does not advance, and no feed after [X]
    in the batch has its last fetch time updated. *)
Lemma fetch_failure_ends_fetch_phase (self : Plugin) (s : state)
  (pre post : list Feed) (X : Feed) (p1 p2 : list (str * str))
  (u fn : str) (fs1 fs2 : gmap str file) (e : exn) :
  bot_testing self = false ->
  fetch_batch (time_time env (ticks s)) (dict_values (self_feeds s))
  = pre ++ X :: post ->
  (forall f, In f pre -> is_Some (dict_get (self_feeds s) (name f))) ->
  NoDup (List.map name (pre ++ X :: post)) ->
  fetch_all env pre (files s) = Some fs1 ->
  combine (feeds X) (filenames X) = p1 ++ (u, fn) :: p2 ->
  fetch_urls env (headers X) p1 fs1 = (fs2, Ok tt) ->
  requests_get env u (headers X) = Raise e ->
  exists s',
    Feeds_fetch env self s = (s', Raise e)
    /\ fetch env X fs1 = (fs2, Raise e)
    /\ (forall f, In f pre ->
          exists f' j, dict_get (self_feeds s') (name f) = Some f'
                       /\ time f' = time_time env j
                       /\ (ticks s < j)%nat)
    /\ dict_get (self_feeds s') (name X) = dict_get (self_feeds s) (name X)
    /\ (forall Y, In Y post ->
          dict_get (self_feeds s') (name Y) = dict_get (self_feeds s) (name Y)).
Proof.
  intros Htest Hbatch Hkeys Hnodup Hall Hcomb Hp1 Hu.
  pose proof (fetch_stops_at_failure X p1 p2 u fn fs1 fs2 e Hcomb Hp1 Hu)
    as HX.
  rewrite Feeds_fetch_unfold, Htest, Hbatch.
  assert (Hcons : exists f0 b0, pre ++ X :: post = f0 :: b0)
    by (destruct pre; simpl; eauto).
  destruct Hcons as (f0 & b0 & Eb). rewrite Eb. rewrite <- Eb.
  rewrite (executor_map_first_failure pre post X (files s) fs1 fs2 e Hall HX).
  cbn [fst snd].
  set (s1 := MkState _ _ _ _ _ _).
  assert (Hkeys1 : forall n, In n (List.map name pre) ->
                             is_Some (dict_get (self_feeds s1) n)).
  { intros n Hn. apply in_map_iff in Hn as (f & <- & Hf). now apply Hkeys. }
  rewrite <- (map_map name Ok pre).
  destruct (consume_first_failure (List.map name pre)
              (snd (executor_map env post true fs2)) e s1 Hkeys1)
    as (s' & Hs' & Hother & Hset).
  exists s'. split; [exact Hs'|]. split; [exact HX|].
  rewrite map_app in Hnodup. simpl in Hnodup.
  apply NoDup_app in Hnodup as (_ & Hdisj & _).
  split; [|split].
  - intros f Hf. destruct (Hset (name f) (in_map name _ _ Hf))
      as (f' & j & H1 & H2 & H3).
    exists f', j. split; [exact H1|]. split; [exact H2|].
    unfold s1 in H3. simpl in H3. lia.
  - rewrite Hother; [reflexivity|].
    intros Hin. apply list_elem_of_In in Hin.
    apply (Hdisj _ Hin). now left.
  - intros Y HY. rewrite Hother; [reflexivity|].
    intros Hin. apply list_elem_of_In in Hin.
    apply (Hdisj _ Hin). right. apply list_elem_of_In. now apply in_map.
Qed.

End FetchFailure.

Lemma fetch_failure_ends_fetch_phase_witness :
  let self := Sample.plugin default_hook true in
  let s := Sample.fetch_state in
  let fs1 : gmap str file :=
    <[py "d/first.0.feed" := Sample.textfile "b"]> ∅ in
  let fs2 : gmap str file :=
    <[py "d/middle.0.feed" := Sample.textfile "b"]> fs1 in
  let p1 := [(py "http://m/0", py "d/middle.0.feed")] in
  let p2 := [(py "http://m/2", py "d/middle.2.feed")] in
  let e := External (py "ConnectionError") in
  bot_testing self = false
  /\ fetch_batch (time_time Sample.env (ticks s)) (dict_values (self_feeds s))
     = [Sample.first] ++ Sample.middle :: [Sample.final]
  /\ (forall f, In f [Sample.first] ->
                is_Some (dict_get (self_feeds s) (name f)))
  /\ NoDup (List.map name ([Sample.first] ++ Sample.middle :: [Sample.final]))
  /\ fetch_all Sample.env [Sample.first] (files s) = Some fs1
  /\ combine (feeds Sample.middle) (filenames Sample.middle)
     = p1 ++ (py "http://down/1", py "d/middle.1.feed") :: p2
  /\ fetch_urls Sample.env (headers Sample.middle) p1 fs1 = (fs2, Ok tt)
  /\ requests_get Sample.env (py "http://down/1") (headers Sample.middle)
     = Raise e
  /\ exists s',
       Feeds_fetch Sample.env self s = (s', Raise e)
       /\ fetch Sample.env Sample.middle fs1 = (fs2, Raise e)
       /\ (forall f, In f [Sample.first] ->
             exists f' j, dict_get (self_feeds s') (name f) = Some f'
                          /\ time f' = time_time Sample.env j
                          /\ (ticks s < j)%nat)
       /\ dict_get (self_feeds s') (name Sample.middle)
          = dict_get (self_feeds s) (name Sample.middle)
       /\ (forall Y, In Y [Sample.final] ->
             dict_get (self_feeds s') (name Y)
             = dict_get (self_feeds s) (name Y)).
Proof.
  intros self s fs1 fs2 p1 p2 e.
  assert (H1 : bot_testing self = false) by reflexivity.
  assert (H2 : fetch_batch (time_time Sample.env (ticks s))
                           (dict_values (self_feeds s))
               = [Sample.first] ++ Sample.middle :: [Sample.final])
    by (vm_compute; reflexivity).
  assert (H3 : forall f, In f [Sample.first] ->
                         is_Some (dict_get (self_feeds s) (name f))).
  { intros f [<-|[]]. vm_compute. eauto. }
  assert (H4 : NoDup (List.map name
                        ([Sample.first] ++ Sample.middle :: [Sample.final]))).
  { apply (bool_decide_unpack _). vm_compute. reflexivity. }
  assert (H5 : fetch_all Sample.env [Sample.first] (files s) = Some fs1)
    by (vm_compute; reflexivity).
  assert (H6 : combine (feeds Sample.middle) (filenames Sample.middle)
               = p1 ++ (py "http://down/1", py "d/middle.1.feed") :: p2)
    by reflexivity.
  assert (H7 : fetch_urls Sample.env (headers Sample.middle) p1 fs1
               = (fs2, Ok tt)) by (vm_compute; reflexivity).
  assert (H8 : requests_get Sample.env (py "http://down/1")
                            (headers Sample.middle) = Raise e)
    by (vm_compute; reflexivity).
  split; [exact H1|]. split; [exact H2|]. split; [exact H3|].
  split; [exact H4|]. split; [exact H5|]. split; [exact H6|].
  split; [exact H7|]. split; [exact H8|].
  exact (fetch_failure_ends_fetch_phase Sample.env self s [Sample.first]
           [Sample.final] Sample.middle p1 p2 (py "http://down/1")
           (py "d/middle.1.feed") fs1 fs2 e H1 H2 H3 H4 H5 H6 H7 H8).
Defined.

(** C3 on three due feeds.  The feeds [first], [middle] and [final]
    are dispatched in one batch and the second URL of [middle] cannot
    be reached.  The handler around the download in [fetch] re-raises
    (the [pass] after its [raise] is never reached), so [fetch] of
    [middle] raises, the exception leaves the fetch phase, and after
    the phase the last fetch time of [middle] is still 0, and so is the
    one of [final], although no clock reading is 0; only [first], which
    precedes the failure, was updated.  The design document has the
    last fetch time of the failing feed updated all the same, and the
    other feeds unaffected. *)
Theorem failed_fetch_freezes_fetch_times :
  let self := Sample.plugin default_hook true in
  let r := Feeds_fetch Sample.env self Sample.fetch_state in
  fetch_batch (time_time Sample.env 0)
              (dict_values (self_feeds Sample.fetch_state))
  = [Sample.first; Sample.middle; Sample.final]
  /\ snd (fetch Sample.env Sample.middle ∅)
     = Raise (External (py "ConnectionError"))
  /\ snd r = Raise (External (py "ConnectionError"))
  /\ time <$> dict_get (self_feeds (fst r)) (py "first") = Some 1001
  /\ time <$> dict_get (self_feeds (fst r)) (py "middle") = Some 0
  /\ time <$> dict_get (self_feeds (fst r)) (py "final") = Some 0
  /\ forall n, time_time Sample.env n <> 0.
Proof.
  split; [vm_compute; reflexivity|]. split; [vm_compute; reflexivity|].
  split; [vm_compute; reflexivity|]. split; [vm_compute; reflexivity|].
  split; [vm_compute; reflexivity|]. split; [vm_compute; reflexivity|].
  intros n. simpl. lia.
Qed.

(** ** Watermarks *)

Section Watermarks.

Context (env : Collaborators).

(** Whatever the loop of [parse] adds lies above the watermark. *)
Lemma scan_above_watermark (args : Feed) (fname wm : str) (md : datetime)
  (es : list Entry) (acc out : list candidate) :
  scan args fname wm md es acc = Ok out ->
  exists added,
    out = acc ++ added
    /\ forall c, In c added ->
         str_ltb wm (fst c) = true
         /\ filename (snd (snd c)) = Some fname
         /\ exists e, In e es /\ c = candidate_of args fname e.
Proof.
  revert acc out; induction es as [|e es IH]; intros acc out; simpl.
  - intros H. inversion H; subst. exists []. rewrite app_nil_r.
    split; [reflexivity|intros c []].
  - rewrite str_leb_ltb.
    destruct (str_ltb wm (updated e)) eqn:Hlt; simpl.
    + destruct (datetime_of_struct7 (updated_parsed e)) as [d|x];
        simpl; [|discriminate].
      destruct (d <? md).
      * intros H. destruct (IH _ _ H) as (added & -> & Hadded).
        exists added. split; [reflexivity|].
        intros c Hc. destruct (Hadded c Hc) as (H1 & H2 & e' & He' & Hce).
        repeat split; auto. exists e'. split; [now right|exact Hce].
      * intros H. destruct (IH _ _ H) as (added & -> & Hadded).
        exists (candidate_of args fname e :: added).
        split; [now rewrite <- app_assoc|].
        intros c [<-|Hc].
        -- repeat split; auto. exists e. split; [now left|reflexivity].
        -- destruct (Hadded c Hc) as (H1 & H2 & e' & He' & Hce).
           repeat split; auto. exists e'. split; [now right|exact Hce].
    + intros H. destruct (IH _ _ H) as (added & -> & Hadded).
      exists added. split; [reflexivity|].
      intros c Hc. destruct (Hadded c Hc) as (H1 & H2 & e' & He' & Hce).
      repeat split; auto. exists e'. split; [now right|exact Hce].
Qed.

(** The last element of an ascending list is a greatest one. *)
Lemma last_is_greatest (l : list candidate) (newest : candidate) :
  StronglySorted key_le l -> last l = Some newest ->
  In newest l /\ forall c, In c l -> key_le c newest.
Proof.
  induction 1 as [|x l Hs IH Hx]; [discriminate|].
  destruct l as [|y l].
  - simpl. intros H. inversion H; subst. split; [now left|].
    intros c [<-|[]]. apply str_leb_refl.
  - change (last (x :: y :: l)) with (last (y :: l)). intros Hl.
    destruct (IH Hl) as [Hin Hmax]. split; [now right|].
    intros c [<-|Hc]; [|now apply Hmax].
    rewrite List.Forall_forall in Hx. now apply Hx.
Qed.

(** X20.  A feed with a single file: when [parse] returns nothing the
    files are left as they are; otherwise the side file receives the
    greatest accepted timestamp, which is above the watermark read
    before, so the watermark of such a feed only moves up. *)
Lemma single_file_watermark (args : Feed) (fname : str) (s s' : state)
  (out : list candidate) :
  filenames args = [fname] ->
  parse env args s = (s', Ok out) ->
  (out = [] /\ files s' = files s)
  \/ (exists newest,
        In newest out
        /\ (forall c, In c out ->
              key_le c newest /\ filename (snd (snd c)) = Some fname)
        /\ content <$> (files s' !! (fname ++ py ".updated"))
           = Some (fst newest)
        /\ str_ltb (stored_watermark (files s) fname) (fst newest) = true).
Proof.
  intros Hone. rewrite parse_unfold, Hone.
  destruct (datetime_sub_days (datetime_now env (ticks s)) 2) as [md|x];
    [|discriminate].
  simpl. unfold bind. rewrite parse_file_unfold.
  change (files (tick s)) with (files s).
  destruct (feedparser_parse env (files s) fname) as [es|x]; [|discriminate].
  destruct (scan args fname (stored_watermark (files s) fname) md es [])
    as [[|c l]|x] eqn:Hscan; try discriminate.
  - intros H. inversion H; subst. now left.
  - destruct (sorted (c :: l)) as [l'|x] eqn:Hsort; [|discriminate].
    destruct (last l') as [newest|] eqn:Hlast; [|discriminate].
    apply scan_above_watermark in Hscan as (added & Hadd & Hadded).
    simpl in Hadd. subst added.
    apply sorted_ok_spec in Hsort as (Hperm & Hsorted & _).
    destruct (last_is_greatest l' newest Hsorted Hlast) as [Hin Hmax].
    unfold write_file.
    destruct (files s !! (fname ++ py ".updated")) as [f|] eqn:Hf;
      [destruct (writable f)|]; intros H; inversion H; subst; right;
      exists newest; (split; [exact Hin|]);
      (split; [intros c0 Hc0; split; [now apply Hmax|];
               apply (Permutation_in _ (Permutation_sym Hperm)) in Hc0;
               now apply Hadded|]);
      (split; [simpl; now rewrite lookup_insert_eq|]);
      apply (Permutation_in _ (Permutation_sym Hperm)) in Hin;
      now apply Hadded.
Qed.

(** [messages] hands the sorted candidates to the hook one by one; the
    index is the position in the sorted list. *)
Lemma messages_from_positions (self : Plugin) (i : nat)
  (l : list candidate) :
  messages_from env self i l
  = concat (imap (fun j c => messages_of env self (i + j) c) l).
Proof.
  revert i; induction l as [|[u [feed entry]] l IH]; intros i;
    [reflexivity|].
  simpl. unfold messages_of at 1. simpl. rewrite Nat.add_0_r.
  rewrite IH.
  assert (Himap : imap (fun j c => messages_of env self (S i + j) c) l
                  = imap ((fun j c => messages_of env self (i + j) c) ∘ S) l).
  { apply imap_ext. intros j c _. simpl. f_equal. lia. }
  rewrite Himap.
  destruct (self_hook self i feed entry) as [[feed' entry']|]; reflexivity.
Qed.

(** X22.  When [messages] returns, no two different candidates share
    a timestamp, and the messages are those of the candidates taken in
    ascending order of timestamp across all feeds, the hook being given
    each candidate's position in that order. *)
Lemma messages_in_timestamp_order (self : Plugin)
  (entries : list candidate) (out : list (str * str)) :
  messages env self entries = Ok out ->
  exists l,
    Permutation entries l /\ StronglySorted key_le l /\ tie_free entries
    /\ out = concat (imap (messages_of env self) l).
Proof.
  unfold messages, rbind.
  destruct (sorted entries) as [l|x] eqn:Hs; [|discriminate].
  intros H. inversion H; subst.
  apply sorted_ok_spec in Hs as (Hperm & Hsorted & Hfree).
  exists l. repeat split; auto. apply messages_from_positions.
Qed.

(** The write of [parse] does not look at the file at hand: once an
    earlier file of the feed has contributed a candidate, the side
    file of the current file receives the greatest timestamp collected
    so far, whether or not the current file contributed anything. *)
Lemma later_file_watermark_rewritten (args : Feed) (md : datetime)
  (c newest : candidate) (entries l' : list candidate) (fname : str)
  (s : state) (es : list Entry) :
  feedparser_parse env (files s) fname = Ok es ->
  scan args fname (stored_watermark (files s) fname) md es (c :: entries)
  = Ok (c :: entries) ->
  sorted (c :: entries) = Ok l' ->
  last l' = Some newest ->
  files s !! (fname ++ py ".updated") = None ->
  parse_file env args md (c :: entries) fname s
  = (MkState (self_feeds s)
             (<[fname ++ py ".updated" := MkFile (fst newest) true true]>
                (files s))
             (ticks s) (log s) (sent s) (scheduled s), Ok l').
Proof.
  intros Hdec Hscan Hsort Hlast Hnone.
  rewrite parse_file_unfold, Hdec, Hscan, Hsort, Hlast.
  unfold write_file. now rewrite Hnone.
Qed.

(** X21.  Two different candidates with one timestamp, anywhere among
    the feeds, make the parse phase raise [TypeError] after the
    watermarks were written, and nothing is sent. *)
Lemma Feeds_parse_tie_raises (self : Plugin) (s sc : state)
  (entries : list candidate) :
  collect env (dict_values (self_feeds s)) [] s = (sc, Ok entries) ->
  has_tie entries ->
  Feeds_parse env self s = (sc, Raise TypeError) /\ sent sc = sent s.
Proof.
  intros Hc Htie. rewrite Feeds_parse_unfold, Hc.
  destruct (sorted_cases entries) as [(l & _ & _ & _ & Hfree)|(-> & _)].
  - now apply has_tie_not_tie_free in Htie.
  - split; [reflexivity|].
    pose proof (collect_frame env (dict_values (self_feeds s)) [] s) as Hf.
    rewrite Hc in Hf. simpl in Hf. tauto.
Qed.

End Watermarks.

(** ** The read of the watermark, byte by byte *)

(** The decoder raises nothing but [UnicodeDecodeError]. *)
Lemma utf8_decode_raises (bs : list N) (e : exn) :
  utf8_decode bs = Raise e -> e = ValueError.
Proof.
  remember (length bs) as n eqn:Hn. revert bs Hn e.
  induction n as [n IH] using lt_wf_ind. intros bs Hn e.
  assert (Hrec : forall r x, (length r < n)%nat ->
                             utf8_decode r = Raise x -> x = ValueError)
    by (intros r x Hr; exact (IH (length r) Hr r eq_refl x)).
  destruct bs as [|b r]; [discriminate|].
  cbn [utf8_decode]. simpl in Hn.
  destruct (b <? 128)%N.
  { destruct (utf8_decode r) as [t|x] eqn:E; simpl; [discriminate|].
    intros H; inversion H; subst. apply (Hrec r); [lia|exact E]. }
  destruct r as [|c1 r1]; [intros H; now inversion H|]. simpl in Hn.
  destruct ((194 <=? b) && (b <=? 223) && is_cont c1)%N.
  { destruct (utf8_decode r1) as [t|x] eqn:E; simpl; [discriminate|].
    intros H; inversion H; subst. apply (Hrec r1); [lia|exact E]. }
  destruct r1 as [|c2 r2]; [intros H; now inversion H|]. simpl in Hn.
  destruct (second_of_three b c1 && is_cont c2).
  { destruct (utf8_decode r2) as [t|x] eqn:E; simpl; [discriminate|].
    intros H; inversion H; subst. apply (Hrec r2); [lia|exact E]. }
  destruct r2 as [|c3 r3]; [intros H; now inversion H|]. simpl in Hn.
  destruct (second_of_four b c1 && is_cont c2 && is_cont c3).
  { destruct (utf8_decode r3) as [t|x] eqn:E; simpl; [discriminate|].
    intros H; inversion H; subst. apply (Hrec r3); [lia|exact E]. }
  intros H; now inversion H.
Qed.

(** Plain ASCII decodes to itself. *)
Lemma utf8_decode_plain (bs : list N) :
  List.Forall (fun b => (b < 128)%N) bs -> utf8_decode bs = Ok bs.
Proof.
  induction 1 as [|b r Hb _ IH]; [reflexivity|].
  cbn [utf8_decode]. apply N.ltb_lt in Hb. rewrite Hb, IH. reflexivity.
Qed.

Lemma universal_newlines_plain (t : str) :
  ~ In 13%N t -> universal_newlines t = t.
Proof.
  induction t as [|c r IH]; [reflexivity|]. intros Hc.
  cbn [universal_newlines].
  destruct (N.eqb_spec c 13) as [->|_]; [exfalso; apply Hc; now left|].
  rewrite IH; [reflexivity|]. intros H; apply Hc; now right.
Qed.

(** On a file of plain ASCII without carriage return the byte-level
    read is the text-level read. *)
Lemma read_text_plain (fs : gmap str file) (path : str) :
  (forall f, fs !! path = Some f ->
             List.Forall (fun b => (b < 128)%N) (content f)
             /\ ~ In 13%N (content f)) ->
  read_text fs path = read_file fs path.
Proof.
  intros Hplain. unfold read_text, read_file.
  destruct (fs !! path) as [f|]; [|reflexivity].
  destruct (Hplain f eq_refl) as [Hascii Hcr].
  destruct (readable f); [|reflexivity].
  rewrite (utf8_decode_plain _ Hascii). simpl.
  now rewrite (universal_newlines_plain _ Hcr).
Qed.

(** On a watermark file of plain ASCII without carriage return, and on
    a missing or closed one, the two embeddings of the read agree. *)
Lemma read_updated_text_plain (fname : str) (s : state) :
  (forall f, files s !! (fname ++ py ".updated") = Some f ->
             List.Forall (fun b => (b < 128)%N) (content f)
             /\ ~ In 13%N (content f)) ->
  read_updated_text fname s = read_updated fname s.
Proof.
  intros Hplain.
  unfold read_updated_text, read_updated, try_except, bind, open_read_text,
    open_read.
  now rewrite (read_text_plain _ _ Hplain).
Qed.

(** Every outcome of the three lines that read the watermark. *)
Lemma read_updated_text_cases (fname : str) (s : state) :
  read_updated_text fname s
  = match files s !! (fname ++ py ".updated") with
    | None => (s, Ok (py "0"))
    | Some f =>
        if readable f then
          match utf8_decode (content f) with
          | Ok t => (s, Ok (strip (universal_newlines t)))
          | Raise _ => (s, Raise ValueError)
          end
        else (s, Ok (py "0"))
    end.
Proof.
  unfold read_updated_text, try_except, bind, open_read_text, ret, read_text.
  destruct (files s !! (fname ++ py ".updated")) as [f|]; [|reflexivity].
  destruct (readable f); [|reflexivity].
  destruct (utf8_decode (content f)) as [t|x] eqn:E; [reflexivity|].
  apply utf8_decode_raises in E. subst x. reflexivity.
Qed.

Section WatermarkRead.

Context (env : Collaborators).

(** C9, as the code has it.  The read of the watermark of a storage
    location has three outcomes.  When the watermark file is missing or
    may not be opened for reading ([OSError]), the read returns the
    sentinel ['0']; one round of [parse] over that location then
    accepts exactly the decoded entries whose timestamp is above ['0']
    and which are not older than the horizon, returns them (in
    ascending order) and stores the greatest of their timestamps as the
    new watermark, and returns nothing and writes nothing when no entry
    is accepted.  When the file can be read and its bytes are text, the
    read returns that text, line endings as [\n], stripped.  When the
    file can be read and its bytes are not text, the read raises
    [UnicodeDecodeError]: the handler catches [OSError] only, so the
    read is not total.  The date fields of the decoded entries are
    assumed well formed. *)
Theorem watermark_read_sentinel (s : state) (args : Feed) (fname : str)
  (max_date : datetime) (es : list Entry) :
  feedparser_parse env (files s) fname = Ok es ->
  (forall e, In e es -> exists d, entry_datetime e = Ok d) ->
  (forall f, files s !! (fname ++ py ".updated") = Some f ->
             readable f = true ->
             read_updated_text fname s
             = match utf8_decode (content f) with
               | Ok t => (s, Ok (strip (universal_newlines t)))
               | Raise _ => (s, Raise ValueError)
               end)
  /\ ((files s !! (fname ++ py ".updated") = None
       \/ exists f, files s !! (fname ++ py ".updated") = Some f
                    /\ readable f = false) ->
      read_updated_text fname s = (s, Ok (py "0"))
      /\ read_updated fname s = (s, Ok (py "0"))
      /\ exists accepted,
           scan args fname (py "0") max_date es [] = Ok accepted
           /\ (forall e, In e es ->
                 (In (candidate_of args fname e) accepted
                  <-> str_ltb (py "0") (updated e) = true
                      /\ exists d, entry_datetime e = Ok d /\ max_date <= d))
           /\ (accepted = [] ->
               parse_file env args max_date [] fname s = (s, Ok []))
           /\ (forall s' out,
                 parse_file env args max_date [] fname s = (s', Ok out) ->
                 Permutation accepted out
                 /\ StronglySorted key_le out
                 /\ (out <> [] ->
                     exists newest,
                       last out = Some newest
                       /\ content <$> files s' !! (fname ++ py ".updated")
                          = Some (fst newest)))).
Proof.
  intros Hdec Hvalid. split.
  - intros f Hf Hr. rewrite read_updated_text_cases, Hf, Hr. reflexivity.
  - intros Hmiss.
    assert (Hwm : stored_watermark (files s) fname = py "0").
    { unfold stored_watermark, read_file.
      destruct Hmiss as [->|(f & -> & ->)]; reflexivity. }
    split.
    { rewrite read_updated_text_cases.
      destruct Hmiss as [->|(f & -> & ->)]; reflexivity. }
    split; [rewrite read_updated_eq; now rewrite Hwm|].
    exists (List.map (candidate_of args fname)
                     (List.filter (is_new (py "0") max_date) es)).
    assert (Hscan : scan args fname (py "0") max_date es []
                    = Ok (List.map (candidate_of args fname)
                            (List.filter (is_new (py "0") max_date) es))).
    { rewrite scan_filter; [reflexivity|]. intros e He _. now apply Hvalid. }
    split; [exact Hscan|]. split.
    { intros e He. rewrite in_scan_iff by exact He. apply is_new_iff. }
    split.
    { intros Hnil. rewrite parse_file_unfold, Hdec, Hwm, Hscan, Hnil.
      reflexivity. }
    intros s' out. rewrite parse_file_unfold, Hdec, Hwm, Hscan.
    destruct (List.map (candidate_of args fname)
                (List.filter (is_new (py "0") max_date) es)) as [|c l].
    { intros H. inversion H; subst. split; [constructor|].
      split; [constructor|]. intros Hne. now contradict Hne. }
    destruct (sorted (c :: l)) as [l'|x] eqn:Hsort; [|discriminate].
    destruct (last l') as [newest|] eqn:Hlast; [|discriminate].
    apply sorted_ok_spec in Hsort as (Hperm & Hsorted & _).
    unfold write_file.
    destruct (files s !! (fname ++ py ".updated")) as [f|];
      [destruct (writable f)|]; intros H; inversion H; subst;
      (split; [exact Hperm|]); (split; [exact Hsorted|]);
      intros _; exists newest; (split; [exact Hlast|]);
      simpl; now rewrite lookup_insert_eq.
Qed.

End WatermarkRead.

Lemma watermark_read_sentinel_witness :
  feedparser_parse Sample.env (files Sample.news_state) (py "d/news.0.feed")
  = Ok [Sample.entry_a]
  /\ (forall e, In e [Sample.entry_a] -> exists d, entry_datetime e = Ok d)
  /\ files Sample.news_state !! (py "d/news.0.feed" ++ py ".updated") = None
  /\ read_updated_text (py "d/news.0.feed") Sample.news_state
     = (Sample.news_state, Ok (py "0"))
  /\ read_updated (py "d/news.0.feed") Sample.news_state
     = (Sample.news_state, Ok (py "0"))
  /\ exists accepted,
       scan Sample.news (py "d/news.0.feed") (py "0") Sample.horizon
            [Sample.entry_a] []
       = Ok accepted
       /\ (forall e, In e [Sample.entry_a] ->
             (In (candidate_of Sample.news (py "d/news.0.feed") e) accepted
              <-> str_ltb (py "0") (updated e) = true
                  /\ exists d, entry_datetime e = Ok d /\ Sample.horizon <= d))
       /\ (accepted = [] ->
           parse_file Sample.env Sample.news Sample.horizon []
                      (py "d/news.0.feed") Sample.news_state
           = (Sample.news_state, Ok []))
       /\ (forall s' out,
             parse_file Sample.env Sample.news Sample.horizon []
                        (py "d/news.0.feed") Sample.news_state
             = (s', Ok out) ->
             Permutation accepted out
             /\ StronglySorted key_le out
             /\ (out <> [] ->
                 exists newest,
                   last out = Some newest
                   /\ content <$> files s' !! (py "d/news.0.feed"
                                               ++ py ".updated")
                      = Some (fst newest))).
Proof.
  assert (H0 : feedparser_parse Sample.env (files Sample.news_state)
                                (py "d/news.0.feed") = Ok [Sample.entry_a])
    by (vm_compute; reflexivity).
  assert (H1 : forall e, In e [Sample.entry_a] ->
                         exists d, entry_datetime e = Ok d).
  { intros e [<-|[]]; eexists; vm_compute; reflexivity. }
  assert (H2 : files Sample.news_state !! (py "d/news.0.feed" ++ py ".updated")
               = None) by (vm_compute; reflexivity).
  split; [exact H0|]. split; [exact H1|]. split; [exact H2|].
  exact (proj2 (watermark_read_sentinel Sample.env Sample.news_state
                  Sample.news (py "d/news.0.feed") Sample.horizon
                  [Sample.entry_a] H0 H1)
               (or_introl H2)).
Defined.

(** On the sample the round accepts the entry of 01-19 and stores its
    timestamp. *)
Example first_watermark_on_the_sample :
  snd (parse_file Sample.env Sample.news Sample.horizon []
                  (py "d/news.0.feed") Sample.news_state)
  = Ok [candidate_of Sample.news (py "d/news.0.feed") Sample.entry_a]
  /\ content <$> files (fst (parse_file Sample.env Sample.news Sample.horizon
                                        [] (py "d/news.0.feed")
                                        Sample.news_state))
                 !! py "d/news.0.feed.updated"
     = Some (py "2024-01-19T00:00:00Z").
Proof. vm_compute. split; reflexivity. Qed.

(** C9 as stated fails: the watermark file of the sample file exists,
    may be read, and holds the single byte [0xFF], which is not text;
    the read of the watermark raises [UnicodeDecodeError] (a
    [ValueError], which [except OSError] lets through) instead of
    returning ['0'] or any other value. *)
Lemma undecodable_watermark_raises :
  files Sample.garbled_state !! (py "d/mixed.0.feed" ++ py ".updated")
  = Some (MkFile [255%N] true true)
  /\ utf8_decode [255%N] = Raise ValueError
  /\ is_OSError ValueError = false
  /\ read_updated_text (py "d/mixed.0.feed") Sample.garbled_state
     = (Sample.garbled_state, Raise ValueError)
  /\ forall wm, read_updated_text (py "d/mixed.0.feed") Sample.garbled_state
                <> (Sample.garbled_state, Ok wm).
Proof.
  split; [vm_compute; reflexivity|]. split; [reflexivity|].
  split; [reflexivity|].
  assert (H : read_updated_text (py "d/mixed.0.feed") Sample.garbled_state
              = (Sample.garbled_state, Raise ValueError))
    by (vm_compute; reflexivity).
  split; [exact H|]. intros wm. rewrite H. discriminate.
Qed.

(** The decoder on a few byte strings: two- and three-byte sequences,
    an overlong form, a surrogate, a truncated sequence. *)
Example utf8_decode_samples :
  utf8_decode [195; 169]%N = Ok [233%N]
  /\ utf8_decode [226; 130; 172]%N = Ok [8364%N]
  /\ utf8_decode [240; 159; 152; 128]%N = Ok [128512%N]
  /\ utf8_decode [192; 128]%N = Raise ValueError
  /\ utf8_decode [237; 160; 128]%N = Raise ValueError
  /\ utf8_decode [226; 130]%N = Raise ValueError
  /\ universal_newlines [97; 13; 10; 98; 13; 99]%N = [97; 10; 98; 10; 99]%N.
Proof. vm_compute. repeat split; reflexivity. Qed.

(** ** Names that differ by a slash *)



Section SharedNames.

Context (env : Collaborators).


End SharedNames.


(** The two feeds of the sample configuration, run one after the other
    on the file they share: the first run announces the entry and
    stores its timestamp; the second feed finds that watermark and
    announces nothing. *)
Example shared_watermark_on_the_sample :
  let f1 := init_feed Sample.env Sample.config (py "a/b")
                      (py "http://x/feed") in
  let f2 := init_feed Sample.env Sample.config (py "a_b")
                      (py "http://y/feed") in
  let s := Sample.mkstate [(py "a/b", f1); (py "a_b", f2)]
             (<[py "d/a_b.0.feed" := Sample.textfile "b"]> ∅) in
  Feeds_init Sample.env Sample.config = [(py "a/b", f1); (py "a_b", f2)]
  /\ filenames f1 = [py "d/a_b.0.feed"]
  /\ filenames f2 = [py "d/a_b.0.feed"]
  /\ snd (parse Sample.env f1 s)
     = Ok [candidate_of f1 (py "d/a_b.0.feed") Sample.entry_b]
  /\ stored_watermark (files (fst (parse Sample.env f1 s)))
                      (py "d/a_b.0.feed")
     = py "2024-01-20T00:00:00Z"
  /\ snd (parse Sample.env f2 (fst (parse Sample.env f1 s))) = Ok [].
Proof. vm_compute. repeat split; reflexivity. Qed.

(** C1 on a feed with two URLs.  First state: the first file yields
    the new entry of 01-19, the second file yields nothing new (its
    entry of 01-20 is the watermark); [parse] accepts one entry, of the
    first file, and rewrites the watermark of the second file from
    01-20 down to 01-19, so that the next cycle accepts the entry of
    01-20 again.  Second state (first run): the second file accepts the
    entry of 01-19 and its watermark becomes 01-20, the timestamp of
    the other file. *)
Theorem second_watermark_follows_first_file :
  let r := parse Sample.env Sample.news Sample.news_state in
  let r' := parse Sample.env Sample.news (fst r) in
  let q := parse Sample.env Sample.news Sample.first_run_state in
  (snd r = Ok [candidate_of Sample.news (py "d/news.0.feed") Sample.entry_a]
   /\ stored_watermark (files Sample.news_state) (py "d/news.1.feed")
      = py "2024-01-20T00:00:00Z"
   /\ stored_watermark (files (fst r)) (py "d/news.1.feed")
      = py "2024-01-19T00:00:00Z"
   /\ str_ltb (stored_watermark (files (fst r)) (py "d/news.1.feed"))
              (stored_watermark (files Sample.news_state)
                                (py "d/news.1.feed")) = true
   /\ snd r' = Ok [candidate_of Sample.news (py "d/news.1.feed")
                                Sample.entry_b])
  /\ (snd q = Ok [candidate_of Sample.news (py "d/news.1.feed") Sample.entry_a;
                  candidate_of Sample.news (py "d/news.0.feed") Sample.entry_b]
      /\ stored_watermark (files (fst q)) (py "d/news.1.feed")
         = py "2024-01-20T00:00:00Z").
Proof. vm_compute. repeat split; reflexivity. Qed.

(** C4 on two feeds whose new entries carry the same timestamp: each
    feed accepts its entry and advances its watermark, the global sort
    raises [TypeError], and nothing is sent, in this cycle or in the
    next one. *)
Theorem equal_timestamps_stop_the_cycle :
  let self := Sample.plugin default_hook true in
  let r := Feeds_parse Sample.env self Sample.tie_state in
  let r' := Feeds_parse Sample.env self (fst r) in
  snd (collect Sample.env [Sample.left; Sample.right] [] Sample.tie_state)
  = Ok [candidate_of Sample.left (py "d/left.0.feed") Sample.entry_a;
        candidate_of Sample.right (py "d/right.0.feed") Sample.entry_c]
  /\ updated Sample.entry_a = updated Sample.entry_c
  /\ snd r = Raise TypeError
  /\ sent (fst r) = []
  /\ stored_watermark (files (fst r)) (py "d/left.0.feed")
     = py "2024-01-19T00:00:00Z"
  /\ stored_watermark (files (fst r)) (py "d/right.0.feed")
     = py "2024-01-19T00:00:00Z"
  /\ snd r' = Ok tt
  /\ sent (fst r') = [].
Proof. vm_compute. repeat split; reflexivity. Qed.

(** C2 on the feed with two URLs.  The entry of 01-20 in the second
    file is at the watermark of that file, so it is not new; the first
    cycle announces the entry of the first file only, and rewrites the
    second watermark with that entry's older timestamp; the next cycle
    then accepts and sends the entry of 01-20. *)
Theorem announced_entry_is_sent_again :
  let self := Sample.plugin default_hook true in
  let r1 := Feeds_parse Sample.env self Sample.news_state in
  let r2 := Feeds_parse Sample.env self (fst r1) in
  feedparser_parse Sample.env (files Sample.news_state) (py "d/news.1.feed")
  = Ok [Sample.entry_b]
  /\ str_leb (updated Sample.entry_b)
             (stored_watermark (files Sample.news_state) (py "d/news.1.feed"))
     = true
  /\ snd r1 = Ok tt
  /\ sent (fst r1) = [(py "#chan", py "news A")]
  /\ feedparser_parse Sample.env (files (fst r1)) (py "d/news.1.feed")
     = Ok [Sample.entry_b]
  /\ snd r2 = Ok tt
  /\ sent (fst r2) = [(py "#chan", py "news A"); (py "#chan", py "news B")].
Proof. vm_compute. repeat split; reflexivity. Qed.

(** The seventh field of the parsed timestamp, the weekday, is read as
    microseconds: an entry of Friday 2024-01-19 00:00:00 counts as
    00:00:00.000004 and passes a horizon of 00:00:00.000002. *)
Example weekday_counts_as_microseconds :
  datetime_new 2024 1 19 0 0 0 0 = Ok (Sample.horizon)
  /\ datetime_sub_days (datetime_now Sample.late_env 0) 2
     = Ok (Sample.horizon + 2)
  /\ entry_datetime Sample.entry_a = Ok (Sample.horizon + 4)
  /\ snd (parse Sample.late_env Sample.mixed
                (Sample.mkstate [] (<[py "d/mixed.0.feed"
                                      := Sample.textfile "a"]> ∅)))
     = Ok [candidate_of Sample.mixed (py "d/mixed.0.feed") Sample.entry_a].
Proof. vm_compute. repeat split; reflexivity. Qed.

(** * Further properties of the code *)

(** ** [fetch]: what one worker call does to the files *)

Section FetchFiles.

Context (env : Collaborators).

Lemma write_file_other (fs : gmap str file) (p path text : str) :
  path <> p -> fst (write_file fs p text) !! path = fs !! path.
Proof.
  intros Hne. unfold write_file.
  destruct (fs !! p) as [f|]; [destruct (writable f)|]; simpl;
    try reflexivity; now rewrite lookup_insert_ne by congruence.
Qed.

Lemma write_file_ok_content (fs fs' : gmap str file) (p text : str) :
  write_file fs p text = (fs', Ok tt) -> content <$> fs' !! p = Some text.
Proof.
  unfold write_file.
  destruct (fs !! p) as [f|]; [destruct (writable f)|]; intros H;
    inversion H; subst; now rewrite lookup_insert_eq.
Qed.

Lemma fetch_urls_other (hdrs : list (str * str)) (pairs : list (str * str))
  (fs : gmap str file) (path : str) :
  ~ In path (List.map snd pairs) ->
  fst (fetch_urls env hdrs pairs fs) !! path = fs !! path.
Proof.
  revert fs; induction pairs as [|[u fn] pairs IH]; intros fs Hout;
    [reflexivity|].
  simpl in Hout |- *.
  destruct (requests_get env u hdrs) as [c|e]; [|reflexivity].
  pose proof (write_file_other fs fn path c) as Hw.
  destruct (write_file fs fn c) as [fs' [[]|e]]; simpl in Hw |- *.
  - rewrite IH by tauto. apply Hw. intros ->. tauto.
  - apply Hw. intros ->. tauto.
Qed.

Lemma fetch_urls_ok_content (hdrs : list (str * str))
  (pairs : list (str * str)) (fs fs' : gmap str file) :
  NoDup (List.map snd pairs) ->
  fetch_urls env hdrs pairs fs = (fs', Ok tt) ->
  forall u fn, In (u, fn) pairs ->
    exists c, requests_get env u hdrs = Ok c
              /\ content <$> fs' !! fn = Some c.
Proof.
  revert fs; induction pairs as [|[u0 fn0] pairs IH]; intros fs Hnd Hok u fn;
    [intros []|].
  simpl in Hnd, Hok. apply NoDup_cons in Hnd as [Hfresh Hnd].
  destruct (requests_get env u0 hdrs) as [c|e] eqn:Hget; [|discriminate].
  destruct (write_file fs fn0 c) as [fs1 [[]|e]] eqn:Hw; [|discriminate].
  intros [Heq|Hin].
  - inversion Heq; subst. exists c. split; [exact Hget|].
    pose proof (fetch_urls_other hdrs pairs fs1 fn) as Hkeep.
    rewrite Hok in Hkeep. simpl in Hkeep. rewrite Hkeep.
    + now apply write_file_ok_content in Hw.
    + intros Hin. apply Hfresh. now apply list_elem_of_In.
  - exact (IH fs1 Hnd Hok u fn Hin).
Qed.

Lemma in_snd_combine {A B} (a : list A) (b : list B) (y : B) :
  In y (List.map snd (combine a b)) -> In y b.
Proof.
  revert b; induction a as [|x a IH]; intros [|z b]; simpl; try tauto.
  intros [->|H]; [now left|right; now apply IH].
Qed.

Lemma NoDup_snd_combine {A B} (a : list A) (b : list B) :
  NoDup b -> NoDup (List.map snd (combine a b)).
Proof.
  revert b; induction a as [|x a IH]; intros [|z b] Hnd; simpl;
    try constructor.
  - apply NoDup_cons in Hnd as [Hfresh Hnd]. intros Hin. apply Hfresh.
    apply list_elem_of_In. apply list_elem_of_In in Hin.
    now apply in_snd_combine in Hin.
  - apply NoDup_cons in Hnd as [_ Hnd]. now apply IH.
Qed.

(** X1.  When [fetch] returns, it returns the name of the feed, every
    URL of the feed was answered, and each file holds the content that
    its URL answered with (the files of the feed being distinct). *)
Theorem fetch_ok_stores_every_url (args : Feed) (fs fs' : gmap str file)
  (n : str) :
  NoDup (filenames args) ->
  fetch env args fs = (fs', Ok n) ->
  n = name args
  /\ forall url fname,
       In (url, fname) (combine (feeds args) (filenames args)) ->
       exists c, requests_get env url (headers args) = Ok c
                 /\ content <$> fs' !! fname = Some c.
Proof.
  intros Hnd. unfold fetch.
  destruct (fetch_urls env (headers args)
              (combine (feeds args) (filenames args)) fs)
    as [fs1 [[]|e]] eqn:Hok; intros H; inversion H; subst.
  split; [reflexivity|].
  apply (fetch_urls_ok_content _ _ fs fs'); [|exact Hok].
  now apply NoDup_snd_combine.
Qed.

(** X2.  Whether it returns or raises, [fetch] leaves every file that
    is not one of the feed's own files as it was. *)
Theorem fetch_touches_only_own_files (args : Feed) (fs : gmap str file)
  (path : str) :
  ~ In path (filenames args) ->
  fst (fetch env args fs) !! path = fs !! path.
Proof.
  intros Hout. unfold fetch.
  pose proof (fetch_urls_other (headers args)
                (combine (feeds args) (filenames args)) fs path) as Hk.
  destruct (fetch_urls env (headers args)
              (combine (feeds args) (filenames args)) fs) as [fs1 [[]|e]];
    simpl in Hk |- *; apply Hk; intros Hin; apply Hout;
    now apply in_snd_combine in Hin.
Qed.

End FetchFiles.

Lemma fetch_ok_stores_every_url_witness :
  let fs' := fst (fetch Sample.env Sample.first ∅) in
  NoDup (filenames Sample.first)
  /\ fetch Sample.env Sample.first ∅ = (fs', Ok (py "first"))
  /\ py "first" = name Sample.first
  /\ forall url fname,
       In (url, fname) (combine (feeds Sample.first)
                                (filenames Sample.first)) ->
       exists c, requests_get Sample.env url (headers Sample.first) = Ok c
                 /\ content <$> fs' !! fname = Some c.
Proof.
  intros fs'.
  assert (H1 : NoDup (filenames Sample.first)).
  { apply (bool_decide_unpack _). vm_compute. reflexivity. }
  assert (H2 : fetch Sample.env Sample.first ∅ = (fs', Ok (py "first")))
    by (vm_compute; reflexivity).
  split; [exact H1|]. split; [exact H2|].
  exact (fetch_ok_stores_every_url Sample.env Sample.first ∅ fs'
           (py "first") H1 H2).
Defined.

Lemma fetch_touches_only_own_files_witness :
  ~ In (py "d/final.0.feed") (filenames Sample.middle)
  /\ fst (fetch Sample.env Sample.middle ∅) !! py "d/final.0.feed"
     = (∅ : gmap str file) !! py "d/final.0.feed".
Proof.
  assert (H : ~ In (py "d/final.0.feed") (filenames Sample.middle)).
  { vm_compute. intros [H|[H|[H|[]]]]; discriminate H. }
  split; [exact H|].
  exact (fetch_touches_only_own_files Sample.env Sample.middle ∅
           (py "d/final.0.feed") H).
Defined.

(** ** The registry of feeds and the schedule across cycles *)

Section Registry.

Context (env : Collaborators).

Lemma same_options_refl (f : Feed) : same_options f f.
Proof. unfold same_options. tauto. Qed.

Lemma same_options_trans (f g h : Feed) :
  same_options f g -> same_options g h -> same_options f h.
Proof. unfold same_options. intuition congruence. Qed.

Lemma same_registry_refl (d : list (str * Feed)) : same_registry d d.
Proof.
  induction d as [|kf d IH]; constructor; [|exact IH].
  split; [reflexivity|apply same_options_refl].
Qed.

Lemma same_registry_trans (d1 d2 d3 : list (str * Feed)) :
  same_registry d1 d2 -> same_registry d2 d3 -> same_registry d1 d3.
Proof.
  intros H12; revert d3; induction H12 as [|a b d1 d2 [Hk Ho] _ IH];
    intros d3 H23; inversion H23 as [|? c ? d3' [Hk' Ho'] Hrest]; subst;
    constructor.
  - split; [congruence|eapply same_options_trans; eauto].
  - now apply IH.
Qed.

Lemma dict_set_same_registry (d : list (str * Feed)) (k : str)
  (f f' : Feed) :
  dict_get d k = Some f -> same_options f f' ->
  same_registry d (dict_set d k f').
Proof.
  intros Hget Hsame. induction d as [|[k0 v0] d IH]; [discriminate|].
  simpl in Hget |- *. destruct (decide (k0 = k)) as [->|Hne].
  - inversion Hget; subst. constructor; [now split|apply same_registry_refl].
  - constructor; [split; [reflexivity|apply same_options_refl]|now apply IH].
Qed.

Lemma set_time_registry (n : str) (s : state) :
  same_registry (self_feeds s) (self_feeds (fst (set_time env n s))).
Proof.
  unfold set_time. destruct (dict_get (self_feeds s) n) as [feed|] eqn:Hget;
    simpl; [|apply same_registry_refl].
  apply (dict_set_same_registry _ _ feed); [exact Hget|].
  unfold same_options. simpl. tauto.
Qed.

Lemma consume_registry (results : list (result str)) (s : state) :
  same_registry (self_feeds s) (self_feeds (fst (consume env results s))).
Proof.
  revert s; induction results as [|[n|e] rest IH]; intros s; simpl;
    try apply same_registry_refl.
  unfold bind. pose proof (set_time_registry n s) as Hs.
  destruct (set_time env n s) as [s1 [[]|e]]; simpl in Hs |- *;
    [|exact Hs].
  eapply same_registry_trans; [exact Hs|apply IH].
Qed.

Lemma Feeds_fetch_registry (self : Plugin) (s : state) :
  same_registry (self_feeds s) (self_feeds (fst (Feeds_fetch env self s))).
Proof.
  rewrite Feeds_fetch_unfold.
  destruct (bot_testing self); [apply same_registry_refl|].
  destruct (fetch_batch (time_time env (ticks s)) (dict_values (self_feeds s)))
    as [|f b]; [apply same_registry_refl|].
  match goal with |- context [consume env ?rs ?st] =>
    exact (consume_registry rs st) end.
Qed.

Lemma update_registry (self : Plugin) (s : state) :
  same_registry (self_feeds s) (self_feeds (fst (update env self s))).
Proof.
  rewrite update_unfold. cbn [fst].
  set (s1 := after_phase (snd (Feeds_fetch env self s))
                         (fst (Feeds_fetch env self s))).
  set (s2 := after_phase (snd (Feeds_parse env self s1))
                         (fst (Feeds_parse env self s1))).
  assert (H1 : self_feeds s1 = self_feeds (fst (Feeds_fetch env self s)))
    by apply after_phase_frame.
  assert (H2 : self_feeds s2 = self_feeds s1).
  { unfold s2.
    destruct (after_phase_frame (snd (Feeds_parse env self s1))
                (fst (Feeds_parse env self s1))) as (-> & _).
    apply Feeds_parse_frame. }
  assert (H3 : self_feeds (if bot_loop self
                           then fst (call_later (self_delay self) s2)
                           else s2) = self_feeds s2)
    by (destruct (bot_loop self); reflexivity).
  rewrite H3, H2, H1. apply Feeds_fetch_registry.
Qed.

Lemma update_scheduled (self : Plugin) (s : state) :
  scheduled (fst (update env self s))
  = scheduled s ++ (if bot_loop self then [self_delay self] else []).
Proof.
  rewrite update_unfold. cbn [fst].
  set (s1 := after_phase (snd (Feeds_fetch env self s))
                         (fst (Feeds_fetch env self s))).
  set (s2 := after_phase (snd (Feeds_parse env self s1))
                         (fst (Feeds_parse env self s1))).
  assert (H1 : scheduled s1 = scheduled s).
  { unfold s1.
    destruct (after_phase_frame (snd (Feeds_fetch env self s))
                (fst (Feeds_fetch env self s))) as (_ & _ & _ & _ & ->).
    apply Feeds_fetch_frame. }
  assert (H2 : scheduled s2 = scheduled s1).
  { unfold s2.
    destruct (after_phase_frame (snd (Feeds_parse env self s1))
                (fst (Feeds_parse env self s1))) as (_ & _ & _ & _ & ->).
    apply Feeds_parse_frame. }
  destruct (bot_loop self); simpl; rewrite ?app_nil_r; congruence.
Qed.

(** X3.  However many update cycles run, and whatever fails in them,
    [self.feeds] keeps its keys in their order, and every feed keeps
    its name, URLs, files, format, delay, channels and headers: a
    cycle changes nothing of a feed but its last fetch time. *)
Theorem cycles_keep_the_registry (self : Plugin) (n : nat) (s : state) :
  same_registry (self_feeds s) (self_feeds (run_updates env self n s)).
Proof.
  revert s; induction n as [|n IH]; intros s; simpl;
    [apply same_registry_refl|].
  eapply same_registry_trans; [apply update_registry|apply IH].
Qed.

(** X4.  On a bot that is not in testing mode and has an event loop,
    [connection_made] asks for the first cycle after 10 seconds, and
    each of the [n] cycles that then run asks for exactly one
    successor after the global delay, whatever failed in it. *)
Theorem one_successor_per_cycle (self : Plugin) (n : nat) (s : state) :
  bot_testing self = false ->
  bot_loop self = true ->
  snd (connection_made self s) = Ok tt
  /\ scheduled (run_updates env self n (fst (connection_made self s)))
     = scheduled s ++ 10 :: repeat (self_delay self) n.
Proof.
  intros Ht Hl. unfold connection_made. rewrite Ht, Hl.
  split; [reflexivity|].
  assert (Hn : forall k st,
             scheduled (run_updates env self k st)
             = scheduled st ++ repeat (self_delay self) k).
  { induction k as [|k IH]; intros st; simpl; [now rewrite app_nil_r|].
    rewrite IH, update_scheduled, Hl, <- app_assoc. reflexivity. }
  rewrite Hn. simpl. now rewrite <- app_assoc.
Qed.

End Registry.

Lemma one_successor_per_cycle_witness :
  let self := Sample.plugin default_hook true in
  bot_testing self = false
  /\ bot_loop self = true
  /\ snd (connection_made self Sample.fetch_state) = Ok tt
  /\ scheduled (run_updates Sample.env self 3
                            (fst (connection_made self Sample.fetch_state)))
     = scheduled Sample.fetch_state ++ 10 :: repeat (self_delay self) 3.
Proof.
  intros self. split; [reflexivity|]. split; [reflexivity|].
  exact (one_successor_per_cycle Sample.env self 3 Sample.fetch_state
           eq_refl eq_refl).
Defined.

(** ** [Feeds.fetch] when every call succeeds *)

Section FetchSuccess.

Context (env : Collaborators).





End FetchSuccess.


(** ** [parse]: what it returns and what it writes *)

Section ParseResult.

Context (env : Collaborators).

Lemma tie_free_perm (l l' : list candidate) :
  Permutation l l' -> tie_free l -> tie_free l'.
Proof.
  intros Hp Ht a b Ha Hb. apply Ht;
    eapply Permutation_in; try apply Permutation_sym; eauto.
Qed.

(** One round of the loop over the files, when it returns. *)
Lemma parse_file_ok (args : Feed) (md : datetime) (entries : list candidate)
  (fname : str) (s s' : state) (out : list candidate) :
  parse_file env args md entries fname s = (s', Ok out) ->
  exists added,
    Permutation (entries ++ added) out
    /\ (forall c, In c added ->
          str_ltb (stored_watermark (files s) fname) (fst c) = true
          /\ filename (snd (snd c)) = Some fname
          /\ exists e, c = candidate_of args fname e)
    /\ (out = [] /\ files s' = files s
        \/ out <> [] /\ StronglySorted key_le out /\ tie_free out).
Proof.
  rewrite parse_file_unfold.
  destruct (feedparser_parse env (files s) fname) as [es|x]; [|discriminate].
  destruct (scan args fname (stored_watermark (files s) fname) md es entries)
    as [[|c l]|x] eqn:Hscan; try discriminate;
    apply scan_above_watermark in Hscan as (added & Hout & Hadded).
  - intros H. inversion H; subst. exists added. rewrite <- Hout.
    split; [constructor|]. split; [|now left].
    intros c Hc. destruct (Hadded c Hc) as (H1 & H2 & e & _ & He). eauto.
  - destruct (sorted (c :: l)) as [l'|x] eqn:Hsort; [|discriminate].
    apply sorted_ok_spec in Hsort as (Hperm & Hsorted & Hfree).
    destruct (last l') as [newest|]; [|discriminate].
    destruct (write_file (files s) (fname ++ py ".updated") (fst newest))
      as [fs [[]|x]]; intros H; inversion H; subst.
    exists added. rewrite <- Hout. split; [exact Hperm|]. split.
    + intros c0 Hc. destruct (Hadded c0 Hc) as (H1 & H2 & e & _ & He). eauto.
    + right. split; [|split; [exact Hsorted|]].
      * intros ->. apply Permutation_sym, Permutation_nil in Hperm.
        discriminate.
      * now apply (tie_free_perm (c :: l)).
Qed.

Lemma parse_files_ok (args : Feed) (md : datetime) (all : list str)
  (fnames : list str) (entries : list candidate) (s s' : state)
  (out : list candidate) :
  (forall fname, In fname fnames -> In fname all) ->
  parse_files env args md fnames entries s = (s', Ok out) ->
  (StronglySorted key_le entries /\ tie_free entries) ->
  (forall c, In c entries ->
     fst (snd c) = args /\ fst c = updated (snd (snd c))
     /\ exists fname, In fname all /\ filename (snd (snd c)) = Some fname) ->
  (StronglySorted key_le out /\ tie_free out)
  /\ (forall c, In c out ->
        fst (snd c) = args /\ fst c = updated (snd (snd c))
        /\ exists fname, In fname all /\ filename (snd (snd c)) = Some fname)
  /\ (out = [] -> entries = [] /\ files s' = files s).
Proof.
  revert entries s; induction fnames as [|fname rest IH];
    intros entries s Hsub Hrun Hsorted Htag.
  - simpl in Hrun. inversion Hrun; subst. split; [exact Hsorted|].
    split; [exact Htag|]. auto.
  - simpl in Hrun. unfold bind in Hrun.
    destruct (parse_file env args md entries fname s) as [s1 [out1|x]]
      eqn:Hfile; [|discriminate].
    apply parse_file_ok in Hfile as (added & Hperm & Hadded & Hcases).
    assert (Htag1 : forall c, In c out1 ->
              fst (snd c) = args /\ fst c = updated (snd (snd c))
              /\ exists fn, In fn all /\ filename (snd (snd c)) = Some fn).
    { intros c Hc. apply (Permutation_in _ (Permutation_sym Hperm)) in Hc.
      apply in_app_or in Hc as [Hc|Hc]; [now apply Htag|].
      destruct (Hadded c Hc) as (_ & Hfn & e & ->).
      split; [reflexivity|]. split; [reflexivity|].
      exists fname. split; [apply Hsub; now left|exact Hfn]. }
    assert (Hsorted1 : StronglySorted key_le out1 /\ tie_free out1).
    { destruct Hcases as [[-> _]|(_ & H1 & H2)]; [|now split].
      split; [constructor|intros a b []]. }
    destruct (IH out1 s1 (fun fn H => Hsub fn (or_intror H)) Hrun
                 Hsorted1 Htag1) as (H1 & H2 & H3).
    split; [exact H1|]. split; [exact H2|].
    intros Hnil. destruct (H3 Hnil) as [-> Hfiles].
    destruct Hcases as [[_ Hsame]|[Hne _]]; [|congruence].
    apply Permutation_sym, Permutation_nil, app_eq_nil in Hperm as [-> _].
    split; [reflexivity|congruence].
Qed.

Lemma parse_ok (args : Feed) (s s' : state) (out : list candidate) :
  parse env args s = (s', Ok out) ->
  (StronglySorted key_le out /\ tie_free out)
  /\ (forall c, In c out ->
        fst (snd c) = args /\ fst c = updated (snd (snd c))
        /\ exists fname, In fname (filenames args)
                         /\ filename (snd (snd c)) = Some fname)
  /\ (out = [] -> files s' = files s).
Proof.
  rewrite parse_unfold.
  destruct (datetime_sub_days (datetime_now env (ticks s)) 2) as [md|x];
    [|discriminate].
  intros Hrun.
  destruct (parse_files_ok args md (filenames args) (filenames args) []
              (tick s) s' out (fun _ H => H) Hrun)
    as (H1 & H2 & H3).
  - split; [constructor|intros a b []].
  - intros c [].
  - split; [exact H1|]. split; [exact H2|].
    intros Hnil. now destruct (H3 Hnil) as [_ ->].
Qed.

(** X6.  What [parse] returns for a feed is in ascending order of
    timestamp, and no two different candidates in it share a
    timestamp. *)
Theorem parse_returns_sorted (args : Feed) (s s' : state)
  (out : list candidate) :
  parse env args s = (s', Ok out) ->
  StronglySorted key_le out /\ tie_free out.
Proof. intros H. now apply parse_ok in H. Qed.

(** X7.  Every candidate that [parse] returns for a feed carries that
    feed, is keyed by the raw timestamp of its entry, and its entry is
    tagged with one of the files of the feed. *)
Theorem parse_tags_candidates (args : Feed) (s s' : state)
  (out : list candidate) (c : candidate) :
  parse env args s = (s', Ok out) ->
  In c out ->
  fst (snd c) = args
  /\ fst c = updated (snd (snd c))
  /\ exists fname, In fname (filenames args)
                   /\ filename (snd (snd c)) = Some fname.
Proof. intros H Hc. apply parse_ok in H as (_ & H & _). now apply H. Qed.

(** X8.  A call of [parse] that returns no candidate has written
    nothing: the files, all watermarks among them, are as before. *)
Theorem parse_nothing_new_writes_nothing (args : Feed) (s s' : state) :
  parse env args s = (s', Ok []) -> files s' = files s.
Proof. intros H. apply parse_ok in H as (_ & _ & H). now apply H. Qed.

End ParseResult.

Lemma parse_returns_sorted_witness :
  let s' := fst (parse Sample.env Sample.news Sample.first_run_state) in
  let out := [candidate_of Sample.news (py "d/news.1.feed") Sample.entry_a;
              candidate_of Sample.news (py "d/news.0.feed") Sample.entry_b] in
  parse Sample.env Sample.news Sample.first_run_state = (s', Ok out)
  /\ StronglySorted key_le out /\ tie_free out.
Proof.
  intros s' out.
  assert (H : parse Sample.env Sample.news Sample.first_run_state
              = (s', Ok out)) by (vm_compute; reflexivity).
  split; [exact H|].
  exact (parse_returns_sorted Sample.env Sample.news Sample.first_run_state
           s' out H).
Defined.

Lemma parse_tags_candidates_witness :
  let s' := fst (parse Sample.env Sample.news Sample.first_run_state) in
  let c := candidate_of Sample.news (py "d/news.1.feed") Sample.entry_a in
  let out := [c; candidate_of Sample.news (py "d/news.0.feed")
                              Sample.entry_b] in
  parse Sample.env Sample.news Sample.first_run_state = (s', Ok out)
  /\ In c out
  /\ fst (snd c) = Sample.news
  /\ fst c = updated (snd (snd c))
  /\ exists fname, In fname (filenames Sample.news)
                   /\ filename (snd (snd c)) = Some fname.
Proof.
  intros s' c out.
  assert (H : parse Sample.env Sample.news Sample.first_run_state
              = (s', Ok out)) by (vm_compute; reflexivity).
  assert (Hc : In c out) by now left.
  split; [exact H|]. split; [exact Hc|].
  exact (parse_tags_candidates Sample.env Sample.news Sample.first_run_state
           s' out c H Hc).
Defined.

Lemma parse_nothing_new_writes_nothing_witness :
  let s' := fst (parse Sample.env Sample.mixed Sample.stale_state) in
  parse Sample.env Sample.mixed Sample.stale_state = (s', Ok [])
  /\ files s' = files Sample.stale_state.
Proof.
  intros s'.
  assert (H : parse Sample.env Sample.mixed Sample.stale_state = (s', Ok []))
    by (vm_compute; reflexivity).
  split; [exact H|].
  exact (parse_nothing_new_writes_nothing Sample.env Sample.mixed
           Sample.stale_state s' H).
Defined.

(** ** The parse phase and the files *)

Section ParseFiles.

Context (env : Collaborators).

Lemma parse_file_other (args : Feed) (md : datetime)
  (entries : list candidate) (fname path : str) (s : state) :
  path <> fname ++ py ".updated" ->
  files (fst (parse_file env args md entries fname s)) !! path
  = files s !! path.
Proof.
  intros Hne. rewrite parse_file_unfold.
  destruct (feedparser_parse env (files s) fname) as [es|x]; [|reflexivity].
  destruct (scan args fname (stored_watermark (files s) fname) md es entries)
    as [[|c l]|x]; try reflexivity.
  destruct (sorted (c :: l)) as [l'|x]; [|reflexivity].
  destruct (last l') as [newest|]; [|reflexivity].
  pose proof (write_file_other (files s) (fname ++ py ".updated") path
                (fst newest) Hne) as Hw.
  destruct (write_file (files s) (fname ++ py ".updated") (fst newest))
    as [fs [[]|x]]; exact Hw.
Qed.

Lemma parse_files_other (args : Feed) (md : datetime) (fnames : list str)
  (entries : list candidate) (path : str) (s : state) :
  (forall fname, In fname fnames -> path <> fname ++ py ".updated") ->
  files (fst (parse_files env args md fnames entries s)) !! path
  = files s !! path.
Proof.
  revert entries s; induction fnames as [|fname rest IH];
    intros entries s Hne; [reflexivity|].
  simpl. unfold bind.
  pose proof (parse_file_other args md entries fname path s
                (Hne fname (or_introl eq_refl))) as Hf.
  destruct (parse_file env args md entries fname s) as [s1 [out1|x]];
    simpl in Hf |- *; [|exact Hf].
  rewrite IH by (intros fn H; apply Hne; now right). exact Hf.
Qed.

Lemma parse_other (args : Feed) (path : str) (s : state) :
  (forall fname, In fname (filenames args) ->
                 path <> fname ++ py ".updated") ->
  files (fst (parse env args s)) !! path = files s !! path.
Proof.
  intros Hne. rewrite parse_unfold.
  destruct (datetime_sub_days (datetime_now env (ticks s)) 2) as [md|x];
    [|reflexivity].
  now rewrite parse_files_other.
Qed.

Lemma collect_other (fl : list Feed) (entries : list candidate) (path : str)
  (s : state) :
  (forall f fname, In f fl -> In fname (filenames f) ->
                   path <> fname ++ py ".updated") ->
  files (fst (collect env fl entries s)) !! path = files s !! path.
Proof.
  revert entries s; induction fl as [|feed rest IH]; intros entries s Hne;
    [reflexivity|].
  simpl. unfold bind.
  pose proof (parse_other feed path s
                (fun fn H => Hne feed fn (or_introl eq_refl) H)) as Hf.
  destruct (parse env feed s) as [s1 [found|x]]; simpl in Hf |- *;
    [|exact Hf].
  rewrite IH by (intros f fn Hf' Hfn; apply (Hne f fn); [now right|exact Hfn]).
  exact Hf.
Qed.

(** X9.  Whether it returns or raises, the parse phase changes no file
    other than the watermark files (file name followed by [.updated])
    of the files of the configured feeds; in particular it never
    touches anything else in the directory. *)
Theorem parse_phase_writes_only_watermarks (self : Plugin) (s : state)
  (path : str) :
  (forall f fname, In f (dict_values (self_feeds s)) ->
                   In fname (filenames f) ->
                   path <> fname ++ py ".updated") ->
  files (fst (Feeds_parse env self s)) !! path = files s !! path.
Proof.
  intros Hne.
  destruct (Feeds_parse_frame env self s) as (_ & _ & _ & -> & _).
  now apply collect_other.
Qed.





(** X11.  Whenever the parse phase raises, it has sent nothing: the
    messages of a cycle go out together or not at all. *)
Theorem parse_phase_raises_sends_nothing (self : Plugin) (s s' : state)
  (e : exn) :
  Feeds_parse env self s = (s', Raise e) -> sent s' = sent s.
Proof.
  rewrite Feeds_parse_unfold.
  pose proof (collect_frame env (dict_values (self_feeds s)) [] s) as Hc.
  destruct (collect env (dict_values (self_feeds s)) [] s)
    as [sc [entries|x]]; simpl in Hc; destruct Hc as (_ & _ & Hsent & _).
  - destruct (sorted entries); intros H; inversion H; subst. exact Hsent.
  - intros H. inversion H; subst. exact Hsent.
Qed.

End ParseFiles.

Lemma parse_phase_writes_only_watermarks_witness :
  let self := Sample.plugin default_hook true in
  (forall f fname, In f (dict_values (self_feeds Sample.mixed_state)) ->
                   In fname (filenames f) ->
                   py "d/mixed.0.feed" <> fname ++ py ".updated")
  /\ files (fst (Feeds_parse Sample.env self Sample.mixed_state))
       !! py "d/mixed.0.feed"
     = files Sample.mixed_state !! py "d/mixed.0.feed".
Proof.
  intros self.
  assert (H : forall f fname,
            In f (dict_values (self_feeds Sample.mixed_state)) ->
            In fname (filenames f) ->
            py "d/mixed.0.feed" <> fname ++ py ".updated").
  { intros f fname [<-|[]] [<-|[]]. vm_compute. discriminate. }
  split; [exact H|].
  exact (parse_phase_writes_only_watermarks Sample.env self
           Sample.mixed_state (py "d/mixed.0.feed") H).
Defined.


Lemma parse_phase_raises_sends_nothing_witness :
  let self := Sample.plugin default_hook true in
  let s' := fst (Feeds_parse Sample.env self Sample.tie_state) in
  Feeds_parse Sample.env self Sample.tie_state = (s', Raise TypeError)
  /\ sent s' = sent Sample.tie_state.
Proof.
  intros self s'.
  assert (H : Feeds_parse Sample.env self Sample.tie_state
              = (s', Raise TypeError)) by (vm_compute; reflexivity).
  split; [exact H|].
  exact (parse_phase_raises_sends_nothing Sample.env self Sample.tie_state
           s' TypeError H).
Defined.

(** ** A feed with a single file across cycles *)

Section SingleFile.

Context (env : Collaborators).

(** X12.  For a feed with a single file whose watermark file can be
    read back, and timestamps of plain ASCII, free of carriage returns
    and of surrounding white space: after [parse] has returned, the
    read of the watermark, taken byte by byte, returns a value that
    every returned candidate is at or below, so the loop of a later
    cycle finds none of these entries new again. *)
Theorem single_file_no_repeat (args : Feed) (fname : str) (s s' : state)
  (out : list candidate) :
  filenames args = [fname] ->
  parse env args s = (s', Ok out) ->
  (forall f, files s !! (fname ++ py ".updated") = Some f ->
             readable f = true) ->
  (forall c, In c out ->
     strip (fst c) = fst c
     /\ List.Forall (fun b => (b < 128)%N) (fst c)
     /\ ~ In 13%N (fst c)) ->
  forall c, In c out ->
    exists wm,
      read_updated_text fname s' = (s', Ok wm)
      /\ read_updated fname s' = (s', Ok wm)
      /\ str_leb (fst c) wm = true
      /\ forall md e, candidate_of args fname e = c ->
                      is_new wm md e = false.
Proof.
  intros Hone Hrun Hread Hplain.
  assert (Hnew : out = []
                 \/ exists newest r,
                      In newest out
                      /\ (forall c, In c out -> key_le c newest)
                      /\ files s' !! (fname ++ py ".updated")
                         = Some (MkFile (fst newest) true r)).
  { revert Hrun. rewrite parse_unfold, Hone.
    destruct (datetime_sub_days (datetime_now env (ticks s)) 2) as [md|x];
      [|discriminate].
    simpl. unfold bind. rewrite parse_file_unfold.
    change (files (tick s)) with (files s).
    destruct (feedparser_parse env (files s) fname) as [es|x];
      [|discriminate].
    destruct (scan args fname (stored_watermark (files s) fname) md es [])
      as [[|c0 l]|x]; try discriminate.
    { intros H. inversion H; subst. now left. }
    destruct (sorted (c0 :: l)) as [l'|x] eqn:Hsort; [|discriminate].
    destruct (last l') as [newest|] eqn:Hlast; [|discriminate].
    apply sorted_ok_spec in Hsort as (_ & Hsorted & _).
    destruct (last_is_greatest l' newest Hsorted Hlast) as [Hin Hmax].
    unfold write_file.
    destruct (files s !! (fname ++ py ".updated")) as [f|] eqn:Hf.
    - rewrite (Hread f eq_refl).
      destruct (writable f); intros H; inversion H; subst.
      right. exists newest, true. split; [exact Hin|].
      split; [exact Hmax|]. simpl. now rewrite lookup_insert_eq.
    - intros H; inversion H; subst.
      right. exists newest, true. split; [exact Hin|].
      split; [exact Hmax|]. simpl. now rewrite lookup_insert_eq. }
  intros c Hc.
  destruct Hnew as [->|(newest & r & Hin & Hmax & Hfile)]; [destruct Hc|].
  destruct (Hplain newest Hin) as (Hstrip & Hascii & Hcr).
  exists (fst newest).
  assert (Hle : str_leb (fst c) (fst newest) = true) by now apply Hmax.
  split.
  { rewrite read_updated_text_cases, Hfile. simpl.
    rewrite (utf8_decode_plain _ Hascii).
    now rewrite (universal_newlines_plain _ Hcr), Hstrip. }
  split.
  { rewrite read_updated_eq. unfold stored_watermark, read_file.
    rewrite Hfile. simpl. now rewrite Hstrip. }
  split; [exact Hle|].
  intros md e <-. simpl in Hle. unfold is_new.
  rewrite str_leb_ltb in Hle. apply negb_true_iff in Hle. now rewrite Hle.
Qed.

Lemma entry_datetime_raises (e : Entry) (x : exn) :
  entry_datetime e = Raise x -> x = ValueError.
Proof.
  unfold entry_datetime, datetime_of_struct7, datetime_new.
  destruct (_ && _); intros H; inversion H; reflexivity.
Qed.

Lemma scan_raises_on_bad_date (args : Feed) (fname wm : str)
  (md : datetime) (es : list Entry) (acc : list candidate) :
  (exists e, In e es /\ str_ltb wm (updated e) = true
             /\ entry_datetime e = Raise ValueError) ->
  scan args fname wm md es acc = Raise ValueError.
Proof.
  revert acc; induction es as [|e es IH]; intros acc (b & Hin & Hlt & Hbad);
    [destruct Hin|].
  simpl. rewrite str_leb_ltb.
  destruct Hin as [->|Hin].
  - rewrite Hlt. simpl. unfold entry_datetime in Hbad. now rewrite Hbad.
  - assert (Htail : exists e', In e' es /\ str_ltb wm (updated e') = true
                               /\ entry_datetime e' = Raise ValueError)
      by eauto.
    destruct (str_ltb wm (updated e)); simpl; [|now apply IH].
    destruct (datetime_of_struct7 (updated_parsed e)) as [d|x] eqn:Hd; simpl.
    + destruct (d <? md); now apply IH.
    + apply (entry_datetime_raises e) in Hd. now subst.
Qed.

End SingleFile.

Lemma single_file_no_repeat_witness :
  let s' := fst (parse Sample.env Sample.mixed Sample.mixed_state) in
  let c := candidate_of Sample.mixed (py "d/mixed.0.feed") Sample.entry_b in
  filenames Sample.mixed = [py "d/mixed.0.feed"]
  /\ parse Sample.env Sample.mixed Sample.mixed_state = (s', Ok [c])
  /\ (forall f, files Sample.mixed_state
                  !! (py "d/mixed.0.feed" ++ py ".updated") = Some f ->
                readable f = true)
  /\ (forall c', In c' [c] ->
        strip (fst c') = fst c'
        /\ List.Forall (fun b => (b < 128)%N) (fst c')
        /\ ~ In 13%N (fst c'))
  /\ In c [c]
  /\ exists wm,
       read_updated_text (py "d/mixed.0.feed") s' = (s', Ok wm)
       /\ read_updated (py "d/mixed.0.feed") s' = (s', Ok wm)
       /\ str_leb (fst c) wm = true
       /\ forall md e,
            candidate_of Sample.mixed (py "d/mixed.0.feed") e = c ->
            is_new wm md e = false.
Proof.
  intros s' c.
  assert (H1 : filenames Sample.mixed = [py "d/mixed.0.feed"]) by reflexivity.
  assert (H2 : parse Sample.env Sample.mixed Sample.mixed_state
               = (s', Ok [c])) by (vm_compute; reflexivity).
  assert (H3 : forall f, files Sample.mixed_state
                           !! (py "d/mixed.0.feed" ++ py ".updated") = Some f ->
                         readable f = true).
  { intros f Hf. vm_compute in Hf. inversion Hf. reflexivity. }
  assert (H4 : forall c', In c' [c] ->
                 strip (fst c') = fst c'
                 /\ List.Forall (fun b => (b < 128)%N) (fst c')
                 /\ ~ In 13%N (fst c')).
  { intros c' [<-|[]]. split; [vm_compute; reflexivity|]. split.
    - apply List.Forall_forall. intros b Hb. apply N.ltb_lt.
      revert b Hb. apply List.Forall_forall.
      repeat (constructor; [reflexivity|]). constructor.
    - intros Hin. vm_compute in Hin. intuition discriminate. }
  assert (H5 : In c [c]) by now left.
  split; [exact H1|]. split; [exact H2|]. split; [exact H3|].
  split; [exact H4|]. split; [exact H5|].
  exact (single_file_no_repeat Sample.env Sample.mixed (py "d/mixed.0.feed")
           Sample.mixed_state s' [c] H1 H2 H3 H4 c H5).
Defined.

Lemma single_file_watermark_witness :
  let s' := fst (parse Sample.env Sample.mixed Sample.mixed_state) in
  let out := [candidate_of Sample.mixed (py "d/mixed.0.feed") Sample.entry_b] in
  filenames Sample.mixed = [py "d/mixed.0.feed"]
  /\ parse Sample.env Sample.mixed Sample.mixed_state = (s', Ok out)
  /\ ((out = [] /\ files s' = files Sample.mixed_state)
      \/ (exists newest,
            In newest out
            /\ (forall c, In c out ->
                  key_le c newest
                  /\ filename (snd (snd c)) = Some (py "d/mixed.0.feed"))
            /\ content <$> (files s' !! (py "d/mixed.0.feed" ++ py ".updated"))
               = Some (fst newest)
            /\ str_ltb (stored_watermark (files Sample.mixed_state)
                                         (py "d/mixed.0.feed"))
                       (fst newest) = true)).
Proof.
  intros s' out.
  assert (H1 : filenames Sample.mixed = [py "d/mixed.0.feed"]) by reflexivity.
  assert (H2 : parse Sample.env Sample.mixed Sample.mixed_state
               = (s', Ok out)) by (vm_compute; reflexivity).
  split; [exact H1|]. split; [exact H2|].
  exact (single_file_watermark Sample.env Sample.mixed (py "d/mixed.0.feed")
           Sample.mixed_state s' out H1 H2).
Defined.

Lemma Feeds_parse_tie_raises_witness :
  let self := Sample.plugin default_hook true in
  let s := Sample.tie_state in
  let sc := fst (collect Sample.env (dict_values (self_feeds s)) [] s) in
  let entries :=
    [candidate_of Sample.left (py "d/left.0.feed") Sample.entry_a;
     candidate_of Sample.right (py "d/right.0.feed") Sample.entry_c] in
  collect Sample.env (dict_values (self_feeds s)) [] s = (sc, Ok entries)
  /\ has_tie entries
  /\ Feeds_parse Sample.env self s = (sc, Raise TypeError)
  /\ sent sc = sent s.
Proof.
  intros self s sc entries.
  assert (H1 : collect Sample.env (dict_values (self_feeds s)) [] s
               = (sc, Ok entries)) by (vm_compute; reflexivity).
  assert (H2 : has_tie entries).
  { exists (candidate_of Sample.left (py "d/left.0.feed") Sample.entry_a),
      (candidate_of Sample.right (py "d/right.0.feed") Sample.entry_c).
    split; [now left|]. split; [right; now left|].
    split; [reflexivity|]. vm_compute. discriminate. }
  split; [exact H1|]. split; [exact H2|].
  exact (Feeds_parse_tie_raises Sample.env self s sc entries H1 H2).
Defined.

Lemma messages_in_timestamp_order_witness :
  let self := Sample.plugin default_hook true in
  let entries :=
    [candidate_of Sample.news (py "d/news.0.feed") Sample.entry_b;
     candidate_of Sample.news (py "d/news.1.feed") Sample.entry_a] in
  let out := [(py "#chan", py "news A"); (py "#chan", py "news B")] in
  messages Sample.env self entries = Ok out
  /\ exists l,
       Permutation entries l /\ StronglySorted key_le l /\ tie_free entries
       /\ out = concat (imap (messages_of Sample.env self) l).
Proof.
  intros self entries out.
  assert (H : messages Sample.env self entries = Ok out)
    by (vm_compute; reflexivity).
  split; [exact H|].
  exact (messages_in_timestamp_order Sample.env self entries out H).
Defined.

(** ** [Feeds.__init__]: the registry it builds *)

Section Init.

Context (env : Collaborators).

Lemma py_inj (a b : string) : py a = py b -> a = b.
Proof.
  unfold py. intros H.
  rewrite <- (string_of_list_ascii_of_string a),
          <- (string_of_list_ascii_of_string b).
  f_equal. revert H.
  generalize (list_ascii_of_string a) (list_ascii_of_string b).
  induction l as [|x l IH]; intros [|y l']; simpl; try discriminate;
    [reflexivity|].
  intros H. inversion H as [[Hxy Hl]]. f_equal; [|now apply IH].
  rewrite <- (ascii_N_embedding x), <- (ascii_N_embedding y). now rewrite Hxy.
Qed.

Lemma str_of_nat_inj (i j : nat) : str_of_nat i = str_of_nat j -> i = j.
Proof.
  unfold str_of_nat. intros H. apply py_inj in H.
  assert (Hnn : forall n, Nat.to_uint n <> Decimal.Nil).
  { intros n. rewrite <- (DecimalNat.Unsigned.of_to n) at 1.
    rewrite DecimalNat.Unsigned.to_of. apply DecimalFacts.unorm_nonnil. }
  apply (f_equal NilZero.uint_of_string) in H.
  rewrite !NilZero.usu in H by apply Hnn.
  inversion H. now apply DecimalNat.Unsigned.to_uint_inj.
Qed.

Lemma indexed_name_inj (stem : str) (i j : nat) :
  stem ++ py "." ++ str_of_nat i ++ py ".feed"
  = stem ++ py "." ++ str_of_nat j ++ py ".feed" -> i = j.
Proof.
  intros Heq. apply app_inv_head in Heq. apply app_inv_head in Heq.
  apply app_inv_tail in Heq. now apply str_of_nat_inj.
Qed.

Lemma indexed_name_not_watermark (stem stem' : str) (i j : nat) :
  stem ++ py "." ++ str_of_nat i ++ py ".feed"
  <> (stem' ++ py "." ++ str_of_nat j ++ py ".feed") ++ py ".updated".
Proof.
  intros Heq. apply (f_equal (@rev N)) in Heq.
  rewrite !rev_app_distr in Heq.
  change (rev (py ".feed")) with [100; 101; 101; 102; 46]%N in Heq.
  change (rev (py ".updated"))
    with [100; 101; 116; 97; 100; 112; 117; 46]%N in Heq.
  rewrite <- !app_assoc in Heq. simpl in Heq. discriminate Heq.
Qed.

Lemma init_filenames_NoDup (directory name : str) (urls : list str) :
  NoDup (init_filenames directory name urls).
Proof.
  apply NoDup_alt. intros i j x Hi Hj.
  unfold init_filenames in Hi, Hj. rewrite list_lookup_imap in Hi, Hj.
  destruct (urls !! i); [|discriminate]. destruct (urls !! j); [|discriminate].
  rewrite <- Hj in Hi.
  apply (indexed_name_inj (path_join directory (replace_slash name))).
  now inversion Hi.
Qed.

Lemma dict_set_in {V} (d : list (str * V)) (k k' : str) (v v' : V) :
  In (k', v') (dict_set d k v) -> (k' = k /\ v' = v) \/ In (k', v') d.
Proof.
  induction d as [|[k0 v0] d IH]; simpl.
  - intros [H|[]]. inversion H. auto.
  - destruct (decide (k0 = k)) as [->|Hne]; simpl.
    + intros [H|H]; [inversion H; auto|auto].
    + intros [H|H]; [auto|]. destruct (IH H); auto.
Qed.

Lemma dict_set_keys {V} (d : list (str * V)) (k k' : str) (v : V) :
  In k' (List.map fst (dict_set d k v)) -> k' = k \/ In k' (List.map fst d).
Proof.
  induction d as [|[k0 v0] d IH]; simpl.
  - intros [H|[]]. auto.
  - destruct (decide (k0 = k)) as [->|Hne]; simpl.
    + intros [H|H]; auto.
    + intros [H|H]; [auto|]. destruct (IH H); auto.
Qed.

Lemma dict_set_keys_NoDup {V} (d : list (str * V)) (k : str) (v : V) :
  NoDup (List.map fst d) -> NoDup (List.map fst (dict_set d k v)).
Proof.
  induction d as [|[k0 v0] d IH]; simpl; intros Hnd.
  - constructor; [intros H; inversion H|constructor].
  - apply NoDup_cons in Hnd as [Hfresh Hnd].
    destruct (decide (k0 = k)) as [->|Hne]; simpl.
    + constructor; assumption.
    + constructor; [|now apply IH].
      intros Hin. apply list_elem_of_In, dict_set_keys in Hin as [->|Hin];
        [congruence|]. apply Hfresh. now apply list_elem_of_In.
Qed.

Lemma dict_get_in_NoDup {V} (d : list (str * V)) (k : str) (v : V) :
  NoDup (List.map fst d) -> In (k, v) d -> dict_get d k = Some v.
Proof.
  induction d as [|[k0 v0] d IH]; simpl; intros Hnd; [intros []|].
  apply NoDup_cons in Hnd as [Hfresh Hnd].
  intros [H|H].
  - inversion H; subst. now rewrite decide_True.
  - destruct (decide (k0 = k)) as [->|Hne]; [|now apply IH].
    exfalso. apply Hfresh. apply list_elem_of_In.
    change k with (fst (k, v)). now apply in_map.
Qed.

Lemma dict_get_set_keeps {V} (d : list (str * V)) (k k' : str) (v : V) :
  is_Some (dict_get d k') -> is_Some (dict_get (dict_set d k v) k').
Proof.
  intros H. destruct (decide (k = k')) as [->|Hne].
  - rewrite dict_get_set_eq. eauto.
  - now rewrite dict_get_set_ne.
Qed.

(** The loop of [__init__] keeps the keys distinct and puts under a
    key only the feed built from an item of that key. *)
Lemma init_feeds_inv (cfg : Config) (all items : list (str * str))
  (acc : list (str * Feed)) :
  (forall kv, In kv items -> In kv all) ->
  NoDup (List.map fst acc) ->
  (forall k f, In (k, f) acc ->
     exists v, In (k, v) all /\ startswith_http v = true
               /\ f = init_feed env cfg k v) ->
  NoDup (List.map fst (init_feeds env cfg items acc))
  /\ (forall k f, In (k, f) (init_feeds env cfg items acc) ->
        exists v, In (k, v) all /\ startswith_http v = true
                  /\ f = init_feed env cfg k v).
Proof.
  revert acc; induction items as [|[k0 v0] items IH]; intros acc Hsub Hnd Hacc;
    [now split|].
  simpl. destruct (startswith_http v0) eqn:Hhttp.
  - apply IH.
    + intros kv H. apply Hsub. now right.
    + now apply dict_set_keys_NoDup.
    + intros k f Hin. apply dict_set_in in Hin as [[-> ->]|Hin].
      * exists v0. split; [apply Hsub; now left|]. now split.
      * now apply Hacc.
  - apply IH; [intros kv H; apply Hsub; now right|exact Hnd|exact Hacc].
Qed.

Lemma init_feeds_keeps (cfg : Config) (items : list (str * str))
  (acc : list (str * Feed)) (k : str) :
  is_Some (dict_get acc k) ->
  is_Some (dict_get (init_feeds env cfg items acc) k).
Proof.
  revert acc; induction items as [|[k0 v0] items IH]; intros acc H;
    [exact H|].
  simpl. destruct (startswith_http v0); [|now apply IH].
  apply IH. now apply dict_get_set_keeps.
Qed.

(** X16.  The files that [__init__] gives to the URLs of one feed are
    pairwise distinct, one per URL, and no file of any feed is the
    watermark file (file name followed by [.updated]) of a file of any
    feed: fetched content and watermarks never share a path. *)
Theorem init_files_distinct (cfg : Config) (name value name' value' : str) :
  NoDup (filenames (init_feed env cfg name value))
  /\ length (filenames (init_feed env cfg name value))
     = length (feeds (init_feed env cfg name value))
  /\ forall f g, In f (filenames (init_feed env cfg name value)) ->
                 In g (filenames (init_feed env cfg name' value')) ->
                 f <> g ++ py ".updated".
Proof.
  simpl. split; [apply init_filenames_NoDup|].
  split; [unfold init_filenames; apply length_imap|].
  intros f g Hf Hg Heq.
  unfold init_filenames in Hf, Hg.
  apply list_elem_of_In, list_elem_of_lookup in Hf as [i Hi].
  apply list_elem_of_In, list_elem_of_lookup in Hg as [j Hj].
  rewrite list_lookup_imap in Hi, Hj.
  destruct (as_list env value !! i); [|discriminate].
  destruct (as_list env value' !! j); [|discriminate].
  apply (indexed_name_not_watermark
           (path_join (cfg_directory cfg) (replace_slash name))
           (path_join (cfg_directory cfg) (replace_slash name')) i j).
  injection Hi as Hf. injection Hj as Hg. rewrite <- Hf, <- Hg in Heq.
  exact Heq.
Qed.

End Init.

(** ** What [parse] writes into a watermark file *)

Section WatermarkWrites.

Context (env : Collaborators).

Lemma write_file_raise_keeps (fs fs' : gmap str file) (p text : str)
  (e : exn) :
  write_file fs p text = (fs', Raise e) -> fs' = fs.
Proof.
  unfold write_file.
  destruct (fs !! p) as [f|]; [destruct (writable f)|]; intros H;
    inversion H; reflexivity.
Qed.

Lemma parse_file_write (args : Feed) (md : datetime)
  (entries : list candidate) (fname : str) (s s' : state)
  (out : list candidate) :
  parse_file env args md entries fname s = (s', Ok out) ->
  (forall c, In c entries -> In c out)
  /\ forall path,
       files s' !! path = files s !! path
       \/ exists c, In c out /\ content <$> files s' !! path = Some (fst c).
Proof.
  intros Hrun.
  assert (Hkeep : forall c, In c entries -> In c out).
  { destruct (parse_file_ok env _ _ _ _ _ _ _ Hrun) as (added & Hperm & _).
    intros c Hc. apply (Permutation_in _ Hperm). apply in_or_app. now left. }
  split; [exact Hkeep|]. revert Hrun. rewrite parse_file_unfold.
  destruct (feedparser_parse env (files s) fname) as [es|x]; [|discriminate].
  destruct (scan args fname (stored_watermark (files s) fname) md es entries)
    as [[|c l]|x]; try discriminate.
  - intros H. inversion H; subst. now left.
  - destruct (sorted (c :: l)) as [l'|x] eqn:Hsort; [|discriminate].
    destruct (last l') as [newest|] eqn:Hlast; [|discriminate].
    apply sorted_ok_spec in Hsort as (_ & Hsorted & _).
    destruct (last_is_greatest l' newest Hsorted Hlast) as [Hin _].
    destruct (write_file (files s) (fname ++ py ".updated") (fst newest))
      as [fs [[]|x]] eqn:Hw; intros H; inversion H; subst.
    intros path. simpl.
    destruct (decide (path = fname ++ py ".updated")) as [->|Hne].
    + right. exists newest. split; [exact Hin|].
      now apply write_file_ok_content in Hw.
    + left. pose proof (write_file_other (files s) (fname ++ py ".updated")
                          path (fst newest) Hne) as Ho.
      now rewrite Hw in Ho.
Qed.

Lemma parse_files_write (args : Feed) (md : datetime) (fnames : list str)
  (entries : list candidate) (s s' : state) (out : list candidate) :
  parse_files env args md fnames entries s = (s', Ok out) ->
  (forall c, In c entries -> In c out)
  /\ forall path,
       files s' !! path = files s !! path
       \/ exists c, In c out /\ content <$> files s' !! path = Some (fst c).
Proof.
  revert entries s; induction fnames as [|fname rest IH]; intros entries s.
  - simpl. intros H. inversion H; subst. split; [auto|now left].
  - simpl. unfold bind.
    destruct (parse_file env args md entries fname s) as [s1 [out1|x]]
      eqn:Hfile; [|discriminate].
    intros Hrest. apply parse_file_write in Hfile as [Hk1 Hw1].
    destruct (IH out1 s1 Hrest) as [Hk Hw].
    split; [auto|]. intros path.
    destruct (Hw path) as [Hsame|Hnew]; [|now right].
    destruct (Hw1 path) as [Hsame1|(c & Hc & Hcont)].
    + left. congruence.
    + right. exists c. split; [auto|congruence].
Qed.

(** X18.  After [parse] has returned for a feed, every file is either
    as it was or holds the timestamp of one of the candidates that
    this call returned: [parse] writes nothing into a watermark file
    but a timestamp it has just accepted. *)
Theorem parse_writes_accepted_timestamps (args : Feed) (s s' : state)
  (out : list candidate) (path : str) :
  parse env args s = (s', Ok out) ->
  files s' !! path = files s !! path
  \/ exists c, In c out /\ content <$> files s' !! path = Some (fst c).
Proof.
  rewrite parse_unfold.
  destruct (datetime_sub_days (datetime_now env (ticks s)) 2) as [md|x];
    [|discriminate].
  intros Hrun. apply parse_files_write in Hrun as [_ Hw]. apply Hw.
Qed.

End WatermarkWrites.

Lemma parse_writes_accepted_timestamps_witness :
  let s' := fst (parse Sample.env Sample.mixed Sample.mixed_state) in
  let out := [candidate_of Sample.mixed (py "d/mixed.0.feed") Sample.entry_b] in
  let path := py "d/mixed.0.feed.updated" in
  parse Sample.env Sample.mixed Sample.mixed_state = (s', Ok out)
  /\ (files s' !! path = files Sample.mixed_state !! path
      \/ exists c, In c out /\ content <$> files s' !! path = Some (fst c)).
Proof.
  intros s' out path.
  assert (H : parse Sample.env Sample.mixed Sample.mixed_state = (s', Ok out))
    by (vm_compute; reflexivity).
  split; [exact H|].
  exact (parse_writes_accepted_timestamps Sample.env Sample.mixed
           Sample.mixed_state s' out path H).
Defined.
